(* ===== verification/_CoqProject ===== *)
-Q . S2P
Prelude.v
PyStr.v
Regex.v
MsgPattern.v
Scanner.v
JavaId.v
Sorter.v
JavaInt.v
Emitter.v
Main.v
