(* ===== verification/Prelude.v ===== *)
(** * A verified model of [p4java/generate-error-codes.py]

    The program (one Python file, [src/p4java/generate-error-codes.py])
    reads the Perforce C client file [msgs/msgdm.cc], extracts every
    [ErrorId MsgDm::<Name> = { ErrorOf(a,b,c,d,e), Q<text>Q };]
    definition ([Q] a double quote), sorts the definitions by their
    numeric code and writes the Java interface [IServerMessageCode.java]
    with one documented [int] constant per definition.  It is a pipeline:

    - the scanner [parse_msgdm] (lines 166-219): a two-state machine
      (normal / inside a block comment) over the stripped physical lines,
      with a buffer matched against [MSG_PATTERN] (lines 17-20) after
      every code line;
    - the sorter (line 125): [list.sort] keyed by [int(x[2].strip())];
    - the emitter [header], [output_line], [footer] and [to_java_id]
      (lines 63-163) with the table [CONSTANT_MAPPING] (lines 23-60);
    - the driver [main] (lines 222-247): the argument and file checks,
      exit codes 0, 1 and 2, and the write of the output file.

    ** Files, in dependency order

    - [Prelude.v] (this file): the string type [str] (a Python [str] on
      code points 0-255 as a [list ascii]), the literal notation
      [⟪ "..." ⟫] of [py_scope], the [result] error monad with stdpp's
      [x ← c; k] notation, the [py] hint databases and shared tactics.
    - [PyStr.v], [Module PyStr]: the [str] methods and [posixpath]
      functions the script calls ([strip], [find], [count], [startswith],
      [upper], [isupper], [isdigit], [replace], [join], [dirname],
      [basename]) from their CPython definitions, and the lemmas on them.
    - [Regex.v], [Module Regex]: the fragment of [re] that [MSG_PATTERN]
      uses, [re_match] the backtracking search in the priority order of
      CPython's [sre] (greedy repeats longest first, lazy ones shortest
      first), [pmatch] its declarative meaning, soundness and
      completeness, and step lemmas that compute a match.
    - [MsgPattern.v], [Module MsgPattern]: [MSG_PATTERN], [msg_match]
      (line 211), the record [msg] of the seven groups, [render] (a
      definition as [msgdm.cc] writes it); a rendered definition followed
      by any text is matched with exactly its fields (C5), and every
      match starts with [ErrorId] and whitespace ([msg_match_prefix]).
    - [Scanner.v], [Module Scanner]: the loop state ([lineno],
      [multiline_comment], [buff], [ret]) as the record [scan_state], one
      definition per branch of the loop body ([scan_comment],
      [scan_code], [cut_line_comment], [feed]), the two [raise] as the
      type [parse_error], [readlines] with universal newlines, and the
      loop as the step relation [reachable].  Theorems: round trip of
      files made of definitions, comments, [#] lines and blank lines
      (C1), the record invariant of every reachable state (C4), the line
      number an error carries (C12), and, for every file that starts
      with such items, what the code does with the lines it handles
      oddly: a line comment mentioning [/*] raises (C17), a one-line
      block comment hides the definitions after it (C18), a definition
      split after [ErrorId] is dropped with all later ones (C19), and a
      [//] inside the quoted text is kept (C24).
    - [JavaId.v], [Module JavaId]: [to_java_id] (lines 99-119) and its
      loop [walk], proved equal to the reference [segments]; how it cuts
      acronyms (C7) and loses the case of the letter after a capital
      (C23), its special cases (C25, C26), the letters it keeps (C27)
      and its length on ASCII names (C28).
    - [Sorter.v], [Module Sorter]: the contract of [list.sort] as the
      class [StableSort], insertion sort [isort] as an instance, the
      theorem that the contract determines the result (so timsort sorts
      as [isort] does), [sort_by_key] (keys first, a raising key aborts),
      and [int()] as [py_int].
    - [JavaInt.v], [Module JavaInt]: what javac makes of the constant
      [output_line] writes, from the Java language specification:
      decimal and octal [int] literals, the 32-bit range, two's
      complement and unary minus ([java_int_value]).
    - [Emitter.v], [Module Emitter]: [CONSTANT_MAPPING] as an
      association list, [map_const], [link], [header], [footer],
      [output_line], [output_msg_lines]; each returns the text it writes.
      Theorems: the records are written sorted and stable for any
      [StableSort] (C3); the comment of a record ends where it should
      (C6) unless the text holds [*/] (C20); the [ValueError] of the key
      (C16); the constant [output_line] declares has the Java value the
      sort uses for decimal codes in [int] range (C15), and differs from
      it for a leading zero (C21) or a code beyond [2^31 - 1] (C22); the
      table (C29); the key on decimal codes (C30).
    - [Main.v], [Module Main]: the file system as a set of directories
      and a map from paths to contents ([gset], [gmap]), [main] returning
      its outcome (exit code or exception), the file system after the
      run and the lines printed.  Theorems: the successful run (C2), the
      partial file a [ValueError] leaves (C8), reproducibility (C9),
      every definition of the source reaching the Java file (C10), the
      only file a run changes (C13), the early exits (C14), and a run on
      a sample [msgdm.cc].  [script] is the entry point of lines
      250-251; its exit status tells what the run left (C11).

    ** Bounds and fuel

    No definition uses fuel: [re_match] recurses on the pattern and tries
    finitely many lengths at each piece, the scanner recurses on the list
    of lines, [walk] on the name, the sort on the list; every model is
    total and computes by [vm_compute].  Characters are the 256 code
    points of [ascii]: [isspace] and [strip] are exact on all of them,
    the letter and digit classes, [\w] and [upper] only on ASCII
    (0-127), where the files the script reads live; [is_ascii] states
    that bound where a theorem depends on it (C28).

    ** Not modelled

    - The traceback an escaping exception prints to stderr; only its exit
      status 1 is modelled.
    - The module docstring and imports (lines 1-13): no behaviour.
    - Decoding of the input by [open(..., 'r')] (a file that is not valid
      in the locale's encoding raises before [parse_msgdm] sees a line),
      characters beyond code point 127 in names and fields (Python's
      [isupper], [isdigit], [\w] and [upper] treat Latin-1 letters and
      digits as such, the model does not), path normalisation and
      symbolic links: paths are compared as strings.
    - The printing of [print] is kept as the list of lines printed; its
      encoding to the terminal is not modelled.
*)

From stdpp Require Export base list strings.
From Stdlib Require Export Ascii.
From Stdlib Require String.

(** ** Strings *)

(** A Python [str] of the program is a list of characters.  The model
    covers code points 0-255 ([ascii] has eight bits); the character
    classes of [PyStr] are exact on 0-127. *)
Abbreviation str := (list ascii).

Declare Scope py_scope.
Delimit Scope py_scope with py.

(** [⟪ "abc" ⟫] is the Python literal ['abc'] as a [str]. *)
Notation "⟪ s ⟫" := (String.list_ascii_of_string s%string) (format "⟪ s ⟫") : py_scope.

Open Scope py_scope.

(** ** Results: a value or a raised exception *)

Inductive result (E A : Type) : Type :=
| Ok (a : A)
| Err (e : E).
Arguments Ok {E A} a.
Arguments Err {E A} e.

#[export] Instance result_ret {E} : MRet (result E) := λ A a, Ok a.
#[export] Instance result_bind {E} : MBind (result E) :=
  λ A B f r, match r with Ok a => f a | Err e => Err e end.
#[export] Instance result_fmap {E} : FMap (result E) :=
  λ A B f r, match r with Ok a => Ok (f a) | Err e => Err e end.

Lemma result_bind_ok {E A B} (a : A) (f : A → result E B) :
  (Ok a ≫= f) = f a.
Proof. reflexivity. Qed.

Lemma result_bind_err {E A B} (e : E) (f : A → result E B) :
  (Err e ≫= f) = Err e.
Proof. reflexivity. Qed.

Lemma result_bind_Ok_inv {E A B} (r : result E A) (f : A → result E B) b :
  (r ≫= f) = Ok b → ∃ a, r = Ok a ∧ f a = Ok b.
Proof. destruct r; simpl; [eauto | discriminate]. Qed.

(** ** Automation *)

Create HintDb py.
Create Rewrite HintDb py_rw.
#[export] Hint Rewrite @result_bind_ok @result_bind_err : py_rw.

(** [invc H]: invert [H] and clean up. *)
Ltac invc H := inversion H; subst; clear H.

(** [case_bool_decide_in H]: split on the first [bool_decide] of [H]. *)
Ltac case_bool_decide_in H :=
  match type of H with
  | context [bool_decide ?P] => destruct (bool_decide_reflect P)
  end.

(** ** Generic list lemmas shared by the components *)

Lemma app_cons_assoc {A} (l1 l2 : list A) x : l1 ++ x :: l2 = (l1 ++ [x]) ++ l2.
Proof. by rewrite <- app_assoc. Qed.

Lemma Forall_app_iff {A} (P : A → Prop) l1 l2 :
  Forall P (l1 ++ l2) ↔ Forall P l1 ∧ Forall P l2.
Proof. apply Forall_app. Qed.
#[export] Hint Resolve Forall_nil_2 : py.

(** A position inside a list starts a nonempty suffix whose head is an
    element of the list. *)
Lemma drop_lt_cons {A} (l : list A) q :
  q < length l → ∃ c l', drop q l = c :: l' ∧ c ∈ l.
Proof.
  intros Hq. destruct (drop q l) as [|c l'] eqn:E.
  { apply (f_equal length) in E. rewrite length_drop in E. simpl in E. lia. }
  exists c, l'. split; [done|]. apply (subseteq_drop q l). rewrite E. left.
Qed.

Lemma head_prefix {A} (p l : list A) : p `prefix_of` l → p ≠ [] → head p = head l.
Proof. intros [k ->] Hp. by destruct p. Qed.

(** An element of a list contributes its image to the concatenation of
    the images. *)
Lemma concat_fmap_split {A B} (f : A → list B) l x :
  x ∈ l → ∃ pre post, concat (f <$> l) = pre ++ f x ++ post.
Proof.
  induction l as [|y l IH]; [by intros ?%elem_of_nil|].
  intros [->|Hx]%elem_of_cons; rewrite fmap_cons; cbn [concat].
  - by exists [], (concat (f <$> l)).
  - destruct (IH Hx) as (pre & post & ->). exists (f y ++ pre), post. by rewrite <- app_assoc.
Qed.
