(* ===== verification/PyStr.v ===== *)
(** * Python string builtins used by [generate-error-codes.py]

    The CPython behaviour of the [str] methods and [posixpath] functions
    the script calls, on the [str] type of [Prelude]: [strip], [find],
    [count] of one character, [startswith], [upper], [isupper],
    [isdigit], [replace] of one character by another, and [join],
    [dirname], [basename] of [posixpath], with the lemmas the scanner, the
    matcher and the emitter share.  [find] returns [option nat] where
    Python returns an index or [-1]. *)

From S2P Require Import Prelude.
From Stdlib Require Import Btauto.

Module PyStr.

(** ** Character classes *)

(** [str.isspace] ([_PyUnicode_IsWhitespace]) on code points 0-255:
    TAB..CR, the information separators 0x1C..0x1F, SPACE, NEL, NBSP.
    The regular expression class [\s] of a [str] pattern is the same set. *)
Definition isspace (c : ascii) : bool :=
  let n := nat_of_ascii c in
  bool_decide (9 ≤ n ≤ 13 ∨ 28 ≤ n ≤ 32 ∨ n = 133 ∨ n = 160).

(** [c.isupper()] for one ASCII character. *)
Definition isupper (c : ascii) : bool :=
  let n := nat_of_ascii c in bool_decide (65 ≤ n ≤ 90).

Definition islower (c : ascii) : bool :=
  let n := nat_of_ascii c in bool_decide (97 ≤ n ≤ 122).

(** [c.isdigit()] for one ASCII character. *)
Definition isdigit (c : ascii) : bool :=
  let n := nat_of_ascii c in bool_decide (48 ≤ n ≤ 57).

(** The regular expression class [\w] on ASCII: letters, digits, [_]. *)
Definition isword (c : ascii) : bool :=
  isupper c || islower c || isdigit c || bool_decide (c = "_"%char).

(** [c.upper()] for one ASCII character. *)
Definition upper_char (c : ascii) : ascii :=
  if islower c then ascii_of_nat (nat_of_ascii c - 32) else c.

(** [s.upper()]. *)
Definition upper (s : str) : str := map upper_char s.

(** The strings on which the classes above are exact: [str.upper],
    [isupper], [isdigit] and [\w] treat the code points 128-255 of
    Latin-1 as letters or digits, and [upper] can lengthen a string
    there ([ß] becomes [SS]). *)
Definition is_ascii (s : str) : Prop := Forall (λ c, nat_of_ascii c < 128) s.

(** ** Stripping *)

Fixpoint lstrip (s : str) : str :=
  match s with
  | [] => []
  | c :: s' => if isspace c then lstrip s' else s
  end.

Definition rstrip (s : str) : str := reverse (lstrip (reverse s)).

(** [s.strip()]: [s[i:j]] with [i] the first and [j - 1] the last
    non-whitespace position. *)
Definition strip (s : str) : str := rstrip (lstrip s).

(** ** Searching *)

(** [s.startswith(pre)]. *)
Fixpoint startswith (pre s : str) : bool :=
  match pre, s with
  | [], _ => true
  | c :: pre', d :: s' => bool_decide (c = d) && startswith pre' s'
  | _ :: _, [] => false
  end.

Fixpoint find_from (pat s : str) (i : nat) : option nat :=
  if startswith pat s then Some i
  else match s with
       | [] => None
       | _ :: s' => find_from pat s' (S i)
       end.

(** [s.find(pat)]: the least index of [pat] in [s], [None] for [-1]. *)
Definition find (pat s : str) : option nat := find_from pat s 0.

(** [s.count(c)] for a one-character [c]. *)
Definition count_char (c : ascii) (s : str) : nat :=
  length (filter (λ d, d = c) s).

(** [s.replace(a, b)] for one-character [a] and [b]. *)
Definition replace_char (a b : ascii) (s : str) : str :=
  map (λ c, if bool_decide (c = a) then b else c) s.

(** ** posixpath *)

Definition slash : ascii := "/"%char.

Fixpoint rfind_from (c : ascii) (s : str) (i : nat) (last : option nat) : option nat :=
  match s with
  | [] => last
  | d :: s' => rfind_from c s' (S i) (if bool_decide (d = c) then Some i else last)
  end.

(** [p.rfind('/') + 1]: the length of the head of a path. *)
Definition head_len (p : str) : nat :=
  match rfind_from slash p 0 None with Some i => S i | None => 0 end.

(** [posixpath.basename]. *)
Definition basename (p : str) : str := drop (head_len p) p.

Fixpoint ldrop_char (c : ascii) (s : str) : str :=
  match s with
  | [] => []
  | d :: s' => if bool_decide (d = c) then ldrop_char c s' else s
  end.

(** [s.rstrip(c)] for one character [c]. *)
Definition rstrip_char (c : ascii) (s : str) : str := reverse (ldrop_char c (reverse s)).

(** [posixpath.dirname]: the head, without its trailing slashes unless
    it is made of slashes only. *)
Definition dirname (p : str) : str :=
  let head := take (head_len p) p in
  if bool_decide (head ≠ [] ∧ head ≠ replicate (length head) slash)
  then rstrip_char slash head
  else head.

Definition endswith_slash (s : str) : bool :=
  match reverse s with c :: _ => bool_decide (c = slash) | [] => false end.

(** [posixpath.join(a, b)] for two components. *)
Definition join (a b : str) : str :=
  if startswith [slash] b then b
  else if bool_decide (a = []) || endswith_slash a then a ++ b
  else a ++ slash :: b.

(** ** Lemmas *)

Definition all_space (s : str) : Prop := Forall (λ c, isspace c = true) s.

Lemma startswith_spec pre s : startswith pre s = true ↔ pre `prefix_of` s.
Proof.
  revert s; induction pre as [|c pre IH]; intros [|d s]; simpl.
  - split; [intros _; apply prefix_nil | done].
  - split; [intros _; apply prefix_nil | done].
  - split; [done | intros H; by apply prefix_nil_inv in H].
  - rewrite andb_true_iff, bool_decide_eq_true, IH.
    split; [intros [-> ?]; by apply prefix_cons|].
    intros H. pose proof (prefix_cons_inv_1 _ _ _ _ H). subst.
    split; [done|]. by eapply prefix_cons_inv_2.
Qed.

Lemma startswith_app pre r : startswith pre (pre ++ r) = true.
Proof. apply startswith_spec. by exists r. Qed.

Lemma find_from_spec pat s i p :
  find_from pat s i = Some p ↔
    i ≤ p ∧ startswith pat (drop (p - i) s) = true ∧
    ∀ q, q < p - i → startswith pat (drop q s) = false.
Proof.
  revert i; induction s as [|c s IH]; intros i; simpl.
  - destruct (startswith pat []) eqn:E.
    + split; [intros [= <-]; rewrite Nat.sub_diag; split_and!; [lia|done|intros; lia]|].
      intros (? & _ & Hq). destruct (decide (p = i)) as [->|]; [done|].
      specialize (Hq 0 ltac:(lia)). simpl in Hq. congruence.
    + split; [done|]. intros (_ & H & _). rewrite drop_nil in H. congruence.
  - destruct (startswith pat (c :: s)) eqn:E.
    + split; [intros [= <-]; rewrite Nat.sub_diag; split_and!; [lia|done|intros; lia]|].
      intros (? & _ & Hq). destruct (decide (p = i)) as [->|]; [done|].
      specialize (Hq 0 ltac:(lia)). simpl in Hq. congruence.
    + rewrite IH. split.
      * intros (? & H & Hq). replace (p - i) with (S (p - S i)) by lia.
        split_and!; [lia|done|]. intros [|q] ?; [done|]. apply Hq. lia.
      * intros (? & H & Hq). destruct (decide (p = i)) as [->|].
        { rewrite Nat.sub_diag in H. simpl in H. congruence. }
        replace (p - i) with (S (p - S i)) in H, Hq by lia.
        split_and!; [lia|done|]. intros q ?. apply (Hq (S q)). lia.
Qed.

Lemma find_spec pat s p :
  find pat s = Some p ↔
    startswith pat (drop p s) = true ∧ ∀ q, q < p → startswith pat (drop q s) = false.
Proof.
  unfold find. rewrite find_from_spec, Nat.sub_0_r.
  split; [intros (_ & ? & ?) | intros (? & ?)]; split_and!; auto with lia.
Qed.

Lemma find_None pat s :
  find pat s = None ↔ ∀ q, startswith pat (drop q s) = false.
Proof.
  unfold find. generalize 0. induction s as [|c s IH]; intros i; simpl.
  - destruct (startswith pat []) eqn:E; split; try done.
    + intros H. specialize (H 0). simpl in H. congruence.
    + intros _ q. by rewrite drop_nil.
  - destruct (startswith pat (c :: s)) eqn:E.
    + split; [done|]. intros H. specialize (H 0). simpl in H. congruence.
    + rewrite IH. split; [intros H [|q]; simpl; auto | intros H q; apply (H (S q))].
Qed.

Lemma count_char_app c s1 s2 : count_char c (s1 ++ s2) = count_char c s1 + count_char c s2.
Proof. unfold count_char. by rewrite filter_app, length_app. Qed.

Lemma count_char_cons_eq c s : count_char c (c :: s) = S (count_char c s).
Proof. unfold count_char. rewrite filter_cons_True; done. Qed.

Lemma count_char_none c s : Forall (λ d, d ≠ c) s → count_char c s = 0.
Proof. induction 1; [done|]. unfold count_char in *. rewrite filter_cons_False; done. Qed.

Lemma count_char_cons_ne c d s : d ≠ c → count_char c (d :: s) = count_char c s.
Proof. intros. unfold count_char. rewrite filter_cons_False; done. Qed.

Lemma lstrip_all_space_app ws s : all_space ws → lstrip (ws ++ s) = lstrip s.
Proof. induction 1 as [|c ws Hc _ IH]; simpl; [done|]. by rewrite Hc. Qed.

Lemma lstrip_nonspace c s : isspace c = false → lstrip (c :: s) = c :: s.
Proof. simpl. by intros ->. Qed.

Lemma lstrip_all_space ws : all_space ws → lstrip ws = [].
Proof. intros H. rewrite <- (app_nil_r ws), lstrip_all_space_app; done. Qed.

(** A string that neither starts nor ends with whitespace. *)
Definition stripped (s : str) : Prop := lstrip s = s ∧ lstrip (reverse s) = reverse s.

Lemma strip_stripped s : stripped s → strip s = s.
Proof.
  intros [H1 H2]. unfold strip, rstrip. by rewrite H1, H2, reverse_involutive.
Qed.

Lemma lstrip_idem s : lstrip (lstrip s) = lstrip s.
Proof. induction s as [|c s IH]; simpl; [done|]. destruct (isspace c) eqn:E; simpl; rewrite ?E; done. Qed.

Lemma lstrip_suffix s : lstrip s `suffix_of` s.
Proof.
  induction s as [|c s IH]; simpl; [done|].
  destruct (isspace c); [by apply suffix_cons_r|done].
Qed.

Lemma length_upper s : length (upper s) = length s.
Proof. apply length_map. Qed.

Lemma upper_app s1 s2 : upper (s1 ++ s2) = upper s1 ++ upper s2.
Proof. apply map_app. Qed.

Lemma rstrip_prefix s : rstrip s `prefix_of` s.
Proof.
  unfold rstrip. rewrite prefix_suffix_reverse, reverse_involutive.
  rewrite <- (reverse_involutive (lstrip (reverse s))), reverse_involutive.
  apply lstrip_suffix.
Qed.

Lemma lstrip_prefix_of_stripped p s : lstrip s = s → p `prefix_of` s → lstrip p = p.
Proof.
  intros Hs [k ->]. destruct p as [|c p]; [done|].
  simpl in *. destruct (isspace c); [|done].
  apply (f_equal length) in Hs. pose proof (suffix_length _ _ (lstrip_suffix (p ++ k))).
  simpl in Hs. lia.
Qed.

(** The result of [strip] has no whitespace at either end. *)
Lemma strip_is_stripped s : stripped (strip s).
Proof.
  unfold strip. split.
  - eapply lstrip_prefix_of_stripped; [apply lstrip_idem|apply rstrip_prefix].
  - unfold rstrip. rewrite reverse_involutive. apply lstrip_idem.
Qed.

Lemma strip_idem s : strip (strip s) = strip s.
Proof. apply strip_stripped, strip_is_stripped. Qed.

Lemma Forall_suffix {A} (P : A → Prop) l1 l2 : l1 `suffix_of` l2 → Forall P l2 → Forall P l1.
Proof. intros [k ->] H. by apply Forall_app in H as [_ H]. Qed.

Lemma Forall_prefix {A} (P : A → Prop) l1 l2 : l1 `prefix_of` l2 → Forall P l2 → Forall P l1.
Proof. intros [k ->] H. by apply Forall_app in H as [H _]. Qed.

(** A property of every character survives [strip]. *)
Lemma Forall_strip (P : ascii → Prop) s : Forall P s → Forall P (strip s).
Proof.
  intros H. unfold strip. eapply Forall_prefix; [apply rstrip_prefix|].
  eapply Forall_suffix; [apply lstrip_suffix|exact H].
Qed.

(** A string of non-whitespace characters is stripped. *)
Lemma stripped_nonspace s : Forall (λ c, isspace c = false) s → stripped s.
Proof.
  intros H. split.
  - destruct H as [|c s Hc _]; [done|]. by apply lstrip_nonspace.
  - apply Forall_reverse in H. destruct (reverse s) as [|c r]; [done|].
    inversion H. by apply lstrip_nonspace.
Qed.

(** *** Two-character patterns *)

(** [s] contains the two characters [x y] next to each other. *)
Fixpoint has2 (x y : ascii) (s : str) : bool :=
  match s with
  | c :: s' =>
      match s' with
      | d :: _ => (bool_decide (c = x) && bool_decide (d = y)) || has2 x y s'
      | [] => false
      end
  | [] => false
  end.

Lemma startswith2 x y s :
  startswith [x; y] s =
  match s with c :: d :: _ => bool_decide (x = c) && bool_decide (y = d) | _ => false end.
Proof. destruct s as [|c [|d s]]; simpl; [done| |]; by rewrite ?andb_true_r, ?andb_false_r. Qed.

Lemma find2_None x y s : find [x; y] s = None ↔ has2 x y s = false.
Proof.
  rewrite find_None. induction s as [|c s IH].
  - split; [done|]. intros _ q. by rewrite drop_nil.
  - destruct s as [|d s].
    + split; [done|]. intros _ q. rewrite startswith2. destruct q as [|[|q]]; simpl; rewrite ?drop_nil; done.
    + change (has2 x y (c :: d :: s)) with
        ((bool_decide (c = x) && bool_decide (d = y)) || has2 x y (d :: s)).
      rewrite orb_false_iff, <- IH. split.
      * intros H. split; [|intros q; apply (H (S q))].
        specialize (H 0). rewrite startswith2 in H. simpl in H.
        repeat case_bool_decide; subst; done.
      * intros [H1 H2] [|q]; [|apply H2].
        rewrite startswith2. simpl. repeat case_bool_decide; subst; done.
Qed.

Lemma has2_app x y a b :
  has2 x y (a ++ b) =
  has2 x y a || has2 x y b || (bool_decide (last a = Some x) && bool_decide (head b = Some y)).
Proof.
  induction a as [|c a IH].
  - simpl. by destruct (has2 x y b).
  - destruct a as [|d a].
    + destruct b as [|e b]; simpl; repeat case_bool_decide; simplify_eq; btauto.
    + change (has2 x y ((c :: d :: a) ++ b)) with
        ((bool_decide (c = x) && bool_decide (d = y)) || has2 x y ((d :: a) ++ b)).
      change (has2 x y (c :: d :: a)) with
        ((bool_decide (c = x) && bool_decide (d = y)) || has2 x y (d :: a)).
      rewrite IH. change (last (c :: d :: a)) with (last (d :: a)). btauto.
Qed.

Lemma has2_cons x y c s :
  has2 x y (c :: s) = has2 x y s || (bool_decide (c = x) && bool_decide (head s = Some y)).
Proof.
  change (c :: s) with ([c] ++ s). rewrite has2_app. simpl.
  destruct s; simpl; repeat case_bool_decide; simplify_eq; btauto.
Qed.

(** *** Trailing whitespace *)

Lemma lstrip_app_nonempty l r : lstrip l ≠ [] → lstrip (l ++ r) = lstrip l ++ r.
Proof.
  induction l as [|c l IH]; simpl; [done|].
  destruct (isspace c); [apply IH|done].
Qed.

Lemma rstrip_snoc_space l c : isspace c = true → rstrip (l ++ [c]) = rstrip l.
Proof. intros Hc. unfold rstrip. rewrite reverse_snoc. simpl. by rewrite Hc. Qed.

Lemma lstrip_nil_iff l : lstrip l = [] ↔ all_space l.
Proof.
  induction l as [|c l IH]; simpl; [split; [constructor|done]|].
  destruct (isspace c) eqn:E.
  - rewrite IH. split; [by constructor|by inversion 1].
  - split; [done|]. inversion 1; congruence.
Qed.

(** [strip] ignores a trailing whitespace character (the line's newline). *)
Lemma strip_snoc_space l c : isspace c = true → strip (l ++ [c]) = strip l.
Proof.
  intros Hc. unfold strip. destruct (decide (lstrip l = [])) as [E|E].
  - rewrite E. apply lstrip_nil_iff in E.
    rewrite lstrip_all_space; [done|]. apply Forall_app; split; [done|by constructor].
  - rewrite lstrip_app_nonempty by done. by apply rstrip_snoc_space.
Qed.

Lemma has2_nofirst x y (s : str) : Forall (λ c, c ≠ x) s → has2 x y s = false.
Proof.
  induction 1 as [|c s Hc _ IH]; [done|]. rewrite has2_cons, IH.
  by rewrite bool_decide_false.
Qed.

Lemma last_nofirst (x : ascii) (s : str) : Forall (λ c, c ≠ x) s → bool_decide (last s = Some x) = false.
Proof.
  intros H. apply bool_decide_false. intros Hl.
  apply last_Some in Hl as [l' ->]. apply Forall_app in H as [_ H]. by inversion H.
Qed.

Lemma has2_suffix x y s1 s2 : s1 `suffix_of` s2 → has2 x y s2 = false → has2 x y s1 = false.
Proof. intros [k ->]. rewrite has2_app. by intros [[_ ->]%orb_false_iff _]%orb_false_iff. Qed.

Lemma has2_prefix x y s1 s2 : s1 `prefix_of` s2 → has2 x y s2 = false → has2 x y s1 = false.
Proof. intros [k ->]. rewrite has2_app. by intros [[-> _]%orb_false_iff _]%orb_false_iff. Qed.

Lemma has2_strip x y s : has2 x y s = false → has2 x y (strip s) = false.
Proof.
  intros H. unfold strip. eapply has2_prefix; [apply rstrip_prefix|].
  eapply has2_suffix; [apply lstrip_suffix|exact H].
Qed.

Lemma lstrip_snoc_nonspace l x : isspace x = false → lstrip (l ++ [x]) = lstrip l ++ [x].
Proof.
  intros Hx. destruct (decide (lstrip l = [])) as [E|E].
  - rewrite E. apply lstrip_nil_iff in E. rewrite lstrip_all_space_app by done.
    by apply lstrip_nonspace.
  - by apply lstrip_app_nonempty.
Qed.

Lemma rstrip_cons_nonspace x s : isspace x = false → rstrip (x :: s) = x :: rstrip s.
Proof.
  intros Hx. unfold rstrip. rewrite reverse_cons, lstrip_snoc_nonspace by done.
  by rewrite reverse_snoc.
Qed.

Lemma strip_cons_nonspace x s : isspace x = false → strip (x :: s) = x :: rstrip s.
Proof. intros Hx. unfold strip. rewrite lstrip_nonspace by done. by apply rstrip_cons_nonspace. Qed.

Lemma rstrip_snoc_nonspace s x : isspace x = false → rstrip (s ++ [x]) = s ++ [x].
Proof.
  intros Hx. unfold rstrip. rewrite reverse_snoc, lstrip_nonspace by done.
  by rewrite <- reverse_snoc, reverse_involutive.
Qed.

(** [strip] of a line that ends with a non-whitespace piece [t]. *)
Lemma strip_app_nonspace_end l t x :
  isspace x = false → strip (l ++ t ++ [x]) = lstrip (l ++ t) ++ [x].
Proof.
  intros Hx. unfold strip. rewrite app_assoc, lstrip_snoc_nonspace by done.
  by apply rstrip_snoc_nonspace.
Qed.

Lemma strip_all_space ws : all_space ws → strip ws = [].
Proof. intros H. unfold strip. by rewrite lstrip_all_space. Qed.

(** *** Finding a two-character pattern *)

Lemma has2_app_false x y a b :
  has2 x y a = false → has2 x y b = false →
  bool_decide (last a = Some x) && bool_decide (head b = Some y) = false →
  has2 x y (a ++ b) = false.
Proof. intros Ha Hb Hab. by rewrite has2_app, Ha, Hb, Hab. Qed.

(** The first occurrence of [x y] is the one after [a] when [a] followed
    by [x] has none. *)
Lemma find2_app x y a b :
  has2 x y (a ++ [x]) = false → find [x; y] (a ++ x :: y :: b) = Some (length a).
Proof.
  unfold find. change (length a) with (0 + length a). generalize 0.
  induction a as [|c a IH]; intros i Ha.
  - simpl. rewrite !bool_decide_true by done. by rewrite Nat.add_0_r.
  - cbn [app] in Ha. rewrite has2_cons, orb_false_iff in Ha. destruct Ha as [Ha Hc].
    assert (startswith [x; y] (c :: a ++ x :: y :: b) = false) as Hs.
    { rewrite startswith2. destruct a; simpl in *; repeat case_bool_decide; simplify_eq/=; done. }
    change (find_from [x; y] ((c :: a) ++ x :: y :: b) i) with
      (if startswith [x; y] (c :: a ++ x :: y :: b) then Some i
       else find_from [x; y] (a ++ x :: y :: b) (S i)).
    rewrite Hs, IH by done. f_equal. simpl. lia.
Qed.

Lemma drop_app_2 {A} (a b : list A) x y : drop (length a + 2) (a ++ x :: y :: b) = b.
Proof. rewrite drop_app_ge by lia. by replace (length a + 2 - length a) with 2 by lia. Qed.

(** A map that keeps [x] and [y] and sends nothing else to them keeps
    [has2 x y]. *)
Lemma has2_map x y (f : ascii → ascii) s :
  (∀ c, f c = x ↔ c = x) → (∀ c, f c = y ↔ c = y) → has2 x y (map f s) = has2 x y s.
Proof.
  intros Hx Hy. induction s as [|c s IH]; [done|].
  rewrite map_cons, !has2_cons, IH. f_equal. f_equal; [by apply bool_decide_ext|].
  destruct s as [|d s]; simpl; [done|]. apply bool_decide_ext. rewrite !(inj_iff Some). apply Hy.
Qed.

Lemma has2_nosecond x y (s : str) : Forall (λ c, c ≠ y) s → has2 x y s = false.
Proof.
  induction 1 as [|c s Hc Hs IH]; [done|]. rewrite has2_cons, IH.
  destruct s as [|d s]; simpl; [by rewrite andb_false_r|].
  inversion Hs; subst. rewrite (bool_decide_false (Some d = _)); [by rewrite andb_false_r|congruence].
Qed.

(** [rstrip] stops at the last non-whitespace character. *)
Lemma rstrip_app_nonspace a x b : isspace x = false → rstrip (a ++ x :: b) = a ++ x :: rstrip b.
Proof.
  intros Hx. unfold rstrip. rewrite reverse_app, reverse_cons.
  rewrite lstrip_app_nonempty; rewrite lstrip_snoc_nonspace by done.
  - by rewrite reverse_app, reverse_involutive, reverse_snoc.
  - intros E. by apply app_eq_nil in E as [_ ?].
Qed.

Lemma join_suffix a b : b `suffix_of` join a b.
Proof.
  unfold join. destruct (startswith [slash] b); [done|].
  destruct (bool_decide (a = []) || endswith_slash a); [by exists a|].
  exists (a ++ [slash]). by rewrite <- app_assoc.
Qed.

End PyStr.
