(* ===== verification/Regex.v ===== *)
(** * A backtracking regular-expression engine for [MSG_PATTERN]

    [MSG_PATTERN.match(buff)] (lines 17-20 and 211 of the script) runs
    CPython's [sre] engine.  [MSG_PATTERN] only uses literal characters,
    one-character classes, greedy [*] and [+] and lazy [*?] over a
    one-character class, and capturing groups around such a piece.  For
    this fragment [sre] tries, at each piece, the lengths the piece may
    consume in a fixed priority order (a greedy repeat from the longest
    run down, a lazy one from zero up) and returns the first way the rest
    of the pattern succeeds.  [re_match] is that search.

    [pmatch] is the declarative meaning of a pattern (which decompositions
    of the input it accepts, without priorities); [re_match_sound] and
    [re_match_complete] relate the two, and the [re_match_*] step lemmas
    compute [re_match] on inputs whose decomposition is known. *)

From S2P Require Import Prelude PyStr.

Module Regex.

(** ** Syntax *)

Inductive atom : Type :=
| Lit (c : ascii)                 (** a literal character *)
| Cls (p : ascii → bool)          (** one character of a class *)
| Star (p : ascii → bool)         (** [p*], greedy *)
| Plus (p : ascii → bool)         (** [p+], greedy *)
| LazyStar (p : ascii → bool).    (** [p*?], lazy *)

Inductive item : Type :=
| Plain (a : atom)
| Group (a : atom).               (** a capturing group [(a)] *)

Definition pattern := list item.

Definition item_atom (it : item) : atom :=
  match it with Plain a | Group a => a end.

Definition is_group (it : item) : bool :=
  match it with Plain _ => false | Group _ => true end.

(** A literal string as a sequence of literal pieces. *)
Definition lits (s : str) : pattern := map (λ c, Plain (Lit c)) s.

(** ** The search *)

(** Length of the longest prefix of [s] whose characters are in [p]. *)
Fixpoint run_len (p : ascii → bool) (s : str) : nat :=
  match s with
  | c :: s' => if p c then S (run_len p s') else 0
  | [] => 0
  end.

(** The lengths a piece may consume at the start of [s], in the order
    [sre] tries them. *)
Definition choices (a : atom) (s : str) : list nat :=
  match a with
  | Lit c => match s with d :: _ => if bool_decide (d = c) then [1] else [] | [] => [] end
  | Cls p => match s with d :: _ => if p d then [1] else [] | [] => [] end
  | Star p => reverse (seq 0 (S (run_len p s)))
  | Plus p => reverse (seq 1 (run_len p s))
  | LazyStar p => seq 0 (S (run_len p s))
  end.

(** The first alternative that succeeds. *)
Fixpoint first_some {A B} (f : A → option B) (l : list A) : option B :=
  match l with
  | [] => None
  | x :: l' => match f x with Some b => Some b | None => first_some f l' end
  end.

(** [re_match pat s] is [Some (groups, end)] when [pat] matches a prefix
    of [s] of length [end], [groups] being the captured substrings in
    order; [None] when the match fails. *)
Fixpoint re_match (pat : pattern) (s : str) : option (list str * nat) :=
  match pat with
  | [] => Some ([], 0)
  | it :: pat' =>
      first_some
        (λ k, match re_match pat' (drop k s) with
              | Some (gs, n) => Some (if is_group it then take k s :: gs else gs, k + n)
              | None => None
              end)
        (choices (item_atom it) s)
  end.

(** ** Declarative meaning *)

Inductive accepts : atom → str → Prop :=
| acc_lit c : accepts (Lit c) [c]
| acc_cls (p : ascii → bool) c : p c = true → accepts (Cls p) [c]
| acc_star (p : ascii → bool) w : Forall (λ c, p c = true) w → accepts (Star p) w
| acc_plus (p : ascii → bool) w :
    w ≠ [] → Forall (λ c, p c = true) w → accepts (Plus p) w
| acc_lazy (p : ascii → bool) w : Forall (λ c, p c = true) w → accepts (LazyStar p) w.

Inductive pmatch : pattern → str → list str → nat → Prop :=
| pm_nil s : pmatch [] s [] 0
| pm_cons it pat w t gs n :
    accepts (item_atom it) w →
    pmatch pat t gs n →
    pmatch (it :: pat) (w ++ t) (if is_group it then w :: gs else gs) (length w + n).

(** ** Lemmas on the search *)

Lemma first_some_Some {A B} (f : A → option B) l b :
  first_some f l = Some b → ∃ x, x ∈ l ∧ f x = Some b.
Proof.
  induction l as [|x l IH]; simpl; [done|].
  destruct (f x) eqn:E; [intros [= <-]; exists x; split; [left|done]|].
  intros H. destruct (IH H) as (y & ? & ?). exists y. split; [by right|done].
Qed.

Lemma first_some_None {A B} (f : A → option B) l :
  first_some f l = None ↔ ∀ x, x ∈ l → f x = None.
Proof.
  induction l as [|x l IH]; simpl.
  - split; [intros _ y Hy; by apply elem_of_nil in Hy | done].
  - destruct (f x) eqn:E.
    + split; [done|]. intros H. rewrite H in E; [done|left].
    + rewrite IH. split.
      * intros H y Hy%elem_of_cons. destruct Hy as [->|]; auto.
      * intros H y Hy. apply H. by right.
Qed.

Lemma run_len_le p s : run_len p s ≤ length s.
Proof. induction s as [|c s IH]; simpl; [lia|]. destruct (p c); simpl; lia. Qed.

Lemma run_len_take p s k : k ≤ run_len p s → Forall (λ c, p c = true) (take k s).
Proof.
  revert k; induction s as [|c s IH]; intros k Hk; simpl in *.
  - by rewrite take_nil.
  - destruct k as [|k]; [constructor|]. simpl.
    destruct (p c) eqn:E; [|lia]. constructor; [done|]. apply IH. lia.
Qed.

Lemma run_len_app p w t :
  Forall (λ c, p c = true) w → run_len p (w ++ t) = length w + run_len p t.
Proof. induction 1 as [|c w Hc _ IH]; simpl; [done|]. by rewrite Hc, IH. Qed.

Lemma run_len_stop p c t : p c = false → run_len p (c :: t) = 0.
Proof. simpl. by intros ->. Qed.

(** Every choice consumes a prefix the piece accepts. *)
Lemma choices_accepts a s k :
  k ∈ choices a s → k ≤ length s ∧ accepts a (take k s).
Proof.
  destruct a as [c|p|p|p|p]; unfold choices.
  - destruct s as [|d s]; [by intros ?%elem_of_nil|].
    case_bool_decide; [|by intros ?%elem_of_nil]. subst.
    intros ->%list_elem_of_singleton. simpl. split; [lia|constructor].
  - destruct s as [|d s]; [by intros ?%elem_of_nil|].
    destruct (p d) eqn:E; [|by intros ?%elem_of_nil].
    intros ->%list_elem_of_singleton. simpl. split; [lia|by constructor].
  - rewrite elem_of_reverse, elem_of_seq. intros [_ Hk].
    pose proof (run_len_le p s). split; [lia|].
    constructor. apply run_len_take. lia.
  - rewrite elem_of_reverse, elem_of_seq. intros [Hk1 Hk2].
    pose proof (run_len_le p s). split; [lia|]. constructor.
    + intros Ht. apply (f_equal length) in Ht. rewrite length_take in Ht. simpl in Ht. lia.
    + apply run_len_take. lia.
  - rewrite elem_of_seq. intros [_ Hk].
    pose proof (run_len_le p s). split; [lia|].
    constructor. apply run_len_take. lia.
Qed.

Lemma pm_cons_split it pat s k gs n :
  k ≤ length s → accepts (item_atom it) (take k s) → pmatch pat (drop k s) gs n →
  pmatch (it :: pat) s (if is_group it then take k s :: gs else gs) (k + n).
Proof.
  intros Hk Ha Hm. pose proof (pm_cons it pat _ _ gs n Ha Hm) as H.
  rewrite take_drop, length_take in H. by replace (k `min` length s) with k in H by lia.
Qed.

(** [re_match] only returns decompositions the pattern accepts. *)
Theorem re_match_sound pat s gs n :
  re_match pat s = Some (gs, n) → pmatch pat s gs n.
Proof.
  revert s gs n; induction pat as [|it pat IH]; intros s gs n; simpl.
  - intros [= <- <-]. constructor.
  - intros (k & Hk & Hf)%first_some_Some.
    destruct (re_match pat (drop k s)) as [[gs' n']|] eqn:E; [|done].
    injection Hf as <- <-. apply choices_accepts in Hk as [Hle Hacc].
    apply pm_cons_split; auto.
Qed.

Lemma first_some_elem {A B} (f : A → option B) l x :
  x ∈ l → is_Some (f x) → is_Some (first_some f l).
Proof.
  induction l as [|y l IH]; simpl; [by intros ?%elem_of_nil|].
  intros Hx Hs. destruct (f y) eqn:E; [eauto|].
  apply elem_of_cons in Hx as [->|Hx]; [by rewrite E in Hs|auto].
Qed.

Lemma accepts_choice a w t : accepts a w → length w ∈ choices a (w ++ t).
Proof.
  destruct 1 as [c|p c Hc|p w Hw|p w Hne Hw|p w Hw]; unfold choices.
  - simpl. rewrite bool_decide_true by done. by left.
  - simpl. rewrite Hc. by left.
  - rewrite elem_of_reverse, elem_of_seq, run_len_app by done. lia.
  - rewrite elem_of_reverse, elem_of_seq, run_len_app by done.
    destruct w; [done|]. simpl. lia.
  - rewrite elem_of_seq, run_len_app by done. lia.
Qed.

(** A pattern that accepts some decomposition of [s] makes the search
    succeed: backtracking explores every alternative. *)
Theorem re_match_complete pat s gs n :
  pmatch pat s gs n → is_Some (re_match pat s).
Proof.
  induction 1 as [s|it pat w t gs n Ha Hm IH]; simpl; [eauto|].
  apply (first_some_elem _ _ (length w)); [by apply accepts_choice|].
  rewrite drop_app_length. destruct IH as [[gs' n'] ->]. eauto.
Qed.

(** *** Computing the search on a known decomposition *)

Lemma first_some_app_None {A B} (f : A → option B) l1 l2 :
  (∀ x, x ∈ l1 → f x = None) → first_some f (l1 ++ l2) = first_some f l2.
Proof.
  induction l1 as [|x l1 IH]; simpl; [done|]. intros H.
  rewrite H by (by left). apply IH. intros y Hy. apply H. by right.
Qed.

Definition step_result (it : item) (s : str) (k : nat) (r : list str * nat) : list str * nat :=
  (if is_group it then take k s :: r.1 else r.1, k + r.2).

Lemma re_match_step it pat s l1 k l2 r :
  choices (item_atom it) s = l1 ++ k :: l2 →
  (∀ j, j ∈ l1 → re_match pat (drop j s) = None) →
  re_match pat (drop k s) = Some r →
  re_match (it :: pat) s = Some (step_result it s k r).
Proof.
  intros Hc Hl Hr. simpl. rewrite Hc, first_some_app_None; simpl.
  - rewrite Hr. by destruct r.
  - intros j Hj. by rewrite Hl.
Qed.

Lemma seq_split_rev m n :
  m ≤ n → reverse (seq 0 (S n)) = reverse (seq (S m) (n - m)) ++ m :: reverse (seq 0 m).
Proof.
  intros H. replace (S n) with (m + S (n - m)) by lia.
  rewrite seq_app, reverse_app. simpl. rewrite reverse_cons, <- app_assoc.
  by replace (0 + m) with m by lia.
Qed.

Lemma seq_split_lazy m n :
  m ≤ n → seq 0 (S n) = seq 0 m ++ m :: seq (S m) (n - m).
Proof.
  intros H. replace (S n) with (m + S (n - m)) by lia.
  rewrite seq_app. simpl. by replace (0 + m) with m by lia.
Qed.

Lemma seq_split_rev1 m n :
  1 ≤ m ≤ n → reverse (seq 1 n) = reverse (seq (S m) (n - m)) ++ m :: reverse (seq 1 (m - 1)).
Proof.
  intros H. replace n with (m - 1 + S (n - m)) at 1 by lia.
  rewrite seq_app. replace (1 + (m - 1)) with m by lia.
  rewrite reverse_app. simpl. by rewrite reverse_cons, <- app_assoc.
Qed.

(** A greedy repeat takes the longest run after which the rest matches. *)
Lemma re_match_greedy it p pat s m r :
  (item_atom it = Star p ∨ (item_atom it = Plus p ∧ 1 ≤ m)) →
  m ≤ run_len p s →
  (∀ j, m < j ≤ run_len p s → re_match pat (drop j s) = None) →
  re_match pat (drop m s) = Some r →
  re_match (it :: pat) s = Some (step_result it s m r).
Proof.
  intros Hit Hm Hj Hr. destruct Hit as [Ha|[Ha H1]].
  - eapply re_match_step; [|intros j Hin; apply Hj|exact Hr].
    + rewrite Ha. unfold choices. by apply seq_split_rev.
    + rewrite elem_of_reverse, elem_of_seq in Hin. lia.
  - eapply re_match_step; [|intros j Hin; apply Hj|exact Hr].
    + rewrite Ha. unfold choices. by apply seq_split_rev1.
    + rewrite elem_of_reverse, elem_of_seq in Hin. lia.
Qed.

(** A lazy repeat takes the shortest run after which the rest matches. *)
Lemma re_match_lazy it p pat s m r :
  item_atom it = LazyStar p →
  m ≤ run_len p s →
  (∀ j, j < m → re_match pat (drop j s) = None) →
  re_match pat (drop m s) = Some r →
  re_match (it :: pat) s = Some (step_result it s m r).
Proof.
  intros Ha Hm Hj Hr. eapply re_match_step; [|intros j Hin; apply Hj|exact Hr].
  - rewrite Ha. unfold choices. by apply seq_split_lazy.
  - rewrite elem_of_seq in Hin. lia.
Qed.

Lemma re_match_lit c pat s :
  re_match (Plain (Lit c) :: pat) (c :: s) =
  (λ r : list str * nat, (r.1, S r.2)) <$> re_match pat s.
Proof.
  simpl. rewrite bool_decide_true by done. simpl. rewrite drop_0.
  by destruct (re_match pat s) as [[]|].
Qed.

Lemma re_match_lits l pat s :
  re_match (lits l ++ pat) (l ++ s) =
  (λ r : list str * nat, (r.1, length l + r.2)) <$> re_match pat s.
Proof.
  induction l as [|c l IH].
  - simpl. by destruct (re_match pat s) as [[]|].
  - change (lits (c :: l) ++ pat) with (Plain (Lit c) :: (lits l ++ pat)).
    change ((c :: l) ++ s) with (c :: (l ++ s)).
    rewrite re_match_lit, IH. by destruct (re_match pat s) as [[]|].
Qed.

Lemma re_match_lit_fail c d pat s :
  c ≠ d → re_match (Plain (Lit c) :: pat) (d :: s) = None.
Proof. intros H. simpl. by rewrite bool_decide_false by congruence. Qed.

Lemma re_match_nil_lit c pat : re_match (Plain (Lit c) :: pat) [] = None.
Proof. done. Qed.

(** *** Repeats on a known run *)

(** [t] does not start with a character of [p]. *)
Definition stops (p : ascii → bool) (t : str) : Prop :=
  match t with c :: _ => p c = false | [] => True end.

Lemma run_len_stops p w t :
  Forall (λ c, p c = true) w → stops p t → run_len p (w ++ t) = length w.
Proof.
  intros Hw Ht. rewrite run_len_app by done.
  destruct t as [|c t]; simpl in *; [lia|]. rewrite Ht. lia.
Qed.

Lemma take_length_app (w t : str) : take (length w) (w ++ t) = w.
Proof. by rewrite take_app_length. Qed.

Lemma re_match_greedy' it p pat s m r r' :
  (item_atom it = Star p ∨ (item_atom it = Plus p ∧ 1 ≤ m)) →
  m ≤ run_len p s →
  (∀ j, m < j ≤ run_len p s → re_match pat (drop j s) = None) →
  re_match pat (drop m s) = Some r →
  r' = step_result it s m r →
  re_match (it :: pat) s = Some r'.
Proof. intros ? ? ? ? ->. by eapply re_match_greedy. Qed.

Local Ltac greedy_tac p w t :=
  eapply (re_match_greedy' _ p _ _ (length w));
  [ | rewrite ?run_len_stops by done; try lia
    | intros j Hj; rewrite ?run_len_stops in Hj by done; lia
    | by rewrite drop_app_length
    | unfold step_result; simpl; by rewrite ?take_length_app ].

Lemma re_match_star_max p pat w t gs n :
  Forall (λ c, p c = true) w → stops p t → re_match pat t = Some (gs, n) →
  re_match (Plain (Star p) :: pat) (w ++ t) = Some (gs, length w + n).
Proof. intros Hw Ht Hr. greedy_tac p w t. by left. Qed.

Lemma re_match_star_none p pat t gs n :
  stops p t → re_match pat t = Some (gs, n) →
  re_match (Plain (Star p) :: pat) t = Some (gs, n).
Proof. intros. by apply (re_match_star_max p pat [] t). Qed.

Lemma re_match_plus_max p pat w t gs n :
  w ≠ [] → Forall (λ c, p c = true) w → stops p t → re_match pat t = Some (gs, n) →
  re_match (Plain (Plus p) :: pat) (w ++ t) = Some (gs, length w + n).
Proof.
  intros Hne Hw Ht Hr. greedy_tac p w t.
  right. split; [done|]. destruct w; [done|simpl; lia].
Qed.

Lemma re_match_group_plus_max p pat w t gs n :
  w ≠ [] → Forall (λ c, p c = true) w → stops p t → re_match pat t = Some (gs, n) →
  re_match (Group (Plus p) :: pat) (w ++ t) = Some (w :: gs, length w + n).
Proof.
  intros Hne Hw Ht Hr. greedy_tac p w t.
  right. split; [done|]. destruct w; [done|simpl; lia].
Qed.

(** [([^,]+)\),]: the longest run also takes the [)], the rest of the
    pattern fails there, and the search gives that character back. *)
Lemma re_match_group_plus_back1 p pat w x t gs n :
  w ≠ [] → Forall (λ c, p c = true) w → p x = true → stops p t →
  re_match pat t = None → re_match pat (x :: t) = Some (gs, n) →
  re_match (Group (Plus p) :: pat) (w ++ x :: t) = Some (w :: gs, length w + n).
Proof.
  intros Hne Hw Hx Ht Hn Hr.
  assert (Hrl : run_len p (w ++ x :: t) = S (length w)).
  { rewrite run_len_app by done. destruct t as [|c t]; simpl in *; rewrite Hx;
      [|rewrite Ht]; lia. }
  eapply (re_match_greedy' _ p _ _ (length w)).
  - right. split; [done|]. destruct w; [done|simpl; lia].
  - lia.
  - intros j Hj. assert (j = S (length w)) as -> by lia.
    replace (S (length w)) with (length (w ++ [x])) by (rewrite length_app; simpl; lia).
    by rewrite (app_cons_assoc w t x), drop_app_length.
  - by rewrite drop_app_length.
  - unfold step_result. simpl. by rewrite take_length_app.
Qed.

Lemma re_match_group_lazy p pat w t gs n :
  Forall (λ c, p c = true) w →
  (∀ j, j < length w → re_match pat (drop j (w ++ t)) = None) →
  re_match pat t = Some (gs, n) →
  re_match (Group (LazyStar p) :: pat) (w ++ t) = Some (w :: gs, length w + n).
Proof.
  intros Hw Hj Hr.
  pose proof (re_match_lazy (Group (LazyStar p)) p pat (w ++ t) (length w) (gs, n) eq_refl) as H.
  unfold step_result in H; simpl in H; rewrite take_length_app in H.
  apply H; [rewrite run_len_app by done; lia | exact Hj | by rewrite drop_app_length].
Qed.

Lemma re_match_lits_Some l pat s gs n :
  re_match pat s = Some (gs, n) → re_match (lits l ++ pat) (l ++ s) = Some (gs, length l + n).
Proof. intros H. by rewrite re_match_lits, H. Qed.

(** *** Inverting the declarative meaning *)

Lemma pmatch_cons_inv it pat s gs n :
  pmatch (it :: pat) s gs n →
  ∃ w t gs' n', s = w ++ t ∧ accepts (item_atom it) w ∧ pmatch pat t gs' n' ∧
    gs = (if is_group it then w :: gs' else gs') ∧ n = length w + n'.
Proof. inversion 1; subst. eauto 10. Qed.

Lemma pmatch_plain_inv a pat s gs n :
  pmatch (Plain a :: pat) s gs n →
  ∃ w t n', s = w ++ t ∧ accepts a w ∧ pmatch pat t gs n' ∧ n = length w + n'.
Proof. inversion 1; subst. eauto 10. Qed.

Lemma pmatch_group_inv a pat s gs n :
  pmatch (Group a :: pat) s gs n →
  ∃ w t gs' n', s = w ++ t ∧ accepts a w ∧ pmatch pat t gs' n' ∧
    gs = w :: gs' ∧ n = length w + n'.
Proof. inversion 1; subst. eauto 10. Qed.

Lemma pmatch_lits_inv l pat s gs n :
  pmatch (lits l ++ pat) s gs n →
  ∃ t n', s = l ++ t ∧ n = length l + n' ∧ pmatch pat t gs n'.
Proof.
  revert s n; induction l as [|c l IH]; intros s n H; simpl in *; [eauto|].
  apply pmatch_cons_inv in H as (w & t & gs' & n' & -> & Ha & Hm & -> & ->).
  inversion Ha; subst. apply IH in Hm as (t' & n'' & -> & -> & Hm).
  exists t', n''. simpl. auto.
Qed.

Lemma pmatch_nil_inv s gs n : pmatch [] s gs n → gs = [] ∧ n = 0.
Proof. by inversion 1. Qed.

(** A match never ends past the end of the input. *)
Lemma pmatch_le pat s gs n : pmatch pat s gs n → n ≤ length s.
Proof. induction 1; rewrite ?length_app; lia. Qed.

End Regex.
