(* ===== verification/MsgPattern.v ===== *)
(** * [MSG_PATTERN] (lines 17-20) and what a match of it yields

    [MSG_PATTERN] as a [Regex.pattern], [msg_match] for
    [MSG_PATTERN.match(buff)] (line 211) with its seven groups and its
    end index, the C source line [render_app] that writes a definition the
    way [msgdm.cc] does, and the two facts the scanner relies on: a
    rendered definition is matched with exactly its fields
    ([msg_match_render]), and every match has the shape the pattern
    promises ([msg_match_shape]). *)

From S2P Require Import Prelude PyStr Regex.

Module MsgPattern.
Import Regex PyStr.

(** ** The pattern *)

Definition dq : ascii := "034"%char.      (** the double quote *)
Definition nl : ascii := "010"%char.      (** [\n] *)
Definition comma : ascii := ","%char.

(** The class [[^,]]. *)
Definition not_comma (c : ascii) : bool := negb (bool_decide (c = comma)).
(** The class [.] (any character but a newline). *)
Definition not_nl (c : ascii) : bool := negb (bool_decide (c = nl)).

(** [\s*ErrorId\s+MsgDm\:\:(\w+)\s*=\s*{\s*ErrorOf\(([^,]+),([^,]+),]
    [([^,]+),([^,]+),([^,]+)\),\s*\Q(.*?)\Q\s*}\s*;], [\Q] standing for
    the escaped double quote. *)
Definition MSG_PATTERN : pattern :=
  Plain (Star isspace) :: lits ⟪"ErrorId"⟫ ++
  Plain (Plus isspace) :: lits ⟪"MsgDm::"⟫ ++
  Group (Plus isword) :: Plain (Star isspace) :: lits ⟪"="⟫ ++
  Plain (Star isspace) :: lits ⟪"{"⟫ ++
  Plain (Star isspace) :: lits ⟪"ErrorOf("⟫ ++
  Group (Plus not_comma) :: lits ⟪","⟫ ++
  Group (Plus not_comma) :: lits ⟪","⟫ ++
  Group (Plus not_comma) :: lits ⟪","⟫ ++
  Group (Plus not_comma) :: lits ⟪","⟫ ++
  Group (Plus not_comma) :: lits ⟪"),"⟫ ++
  Plain (Star isspace) :: Plain (Lit dq) ::
  Group (LazyStar not_nl) :: Plain (Lit dq) ::
  Plain (Star isspace) :: lits ⟪"}"⟫ ++
  Plain (Star isspace) :: lits ⟪";"⟫.

(** [m = MSG_PATTERN.match(buff)]: [Some (groups, m.end())] or [None]. *)
Definition msg_match (buff : str) : option (list str * nat) := re_match MSG_PATTERN buff.

(** ** The groups of a match *)

(** The seven groups, in the order of [ErrorOf]: name, subsystem, code,
    severity, generic, argument count, text. *)
Record msg := Msg {
  m_name : str; m_sub : str; m_code : str; m_sev : str;
  m_gen : str; m_args : str; m_text : str
}.

Definition msg_groups (m : msg) : list str :=
  [m_name m; m_sub m; m_code m; m_sev m; m_gen m; m_args m; m_text m].

(** A field of [ErrorOf]: a nonempty run without comma. *)
Definition field_ok (f : str) : Prop := f ≠ [] ∧ Forall (λ c, not_comma c = true) f.

(** What [MSG_PATTERN] allows in each group. *)
Definition groups_ok (m : msg) : Prop :=
  m_name m ≠ [] ∧ Forall (λ c, isword c = true) (m_name m) ∧
  field_ok (m_sub m) ∧ field_ok (m_code m) ∧ field_ok (m_sev m) ∧
  field_ok (m_gen m) ∧ field_ok (m_args m) ∧
  Forall (λ c, not_nl c = true) (m_text m).

(** ** Rendering a definition *)

(** [ErrorId MsgDm::<name> = { ErrorOf(<sub>,<code>,<sev>,<gen>,<args>), Q<text>Q };]
    followed by [rest], [Q] standing for a double quote. *)
Definition render_app (m : msg) (rest : str) : str :=
  ⟪"ErrorId"⟫ ++ ⟪" "⟫ ++ ⟪"MsgDm::"⟫ ++ m_name m ++ ⟪" "⟫ ++ ⟪"="⟫ ++ ⟪" "⟫ ++
  ⟪"{"⟫ ++ ⟪" "⟫ ++ ⟪"ErrorOf("⟫ ++
  m_sub m ++ ⟪","⟫ ++ m_code m ++ ⟪","⟫ ++ m_sev m ++ ⟪","⟫ ++
  m_gen m ++ ⟪","⟫ ++ m_args m ++ ⟪"),"⟫ ++
  ⟪" "⟫ ++ dq :: m_text m ++ dq :: ⟪" "⟫ ++ ⟪"}"⟫ ++ ⟪";"⟫ ++ rest.

Definition render (m : msg) : str := render_app m [].

(** A text the lazy group stops after: no double quote, no newline. *)
Definition text_ok (t : str) : Prop := Forall (λ c, c ≠ dq ∧ c ≠ nl) t.

(** ** Lemmas *)

Lemma re_match_lit_Some c pat s gs n :
  re_match pat s = Some (gs, n) → re_match (Plain (Lit c) :: pat) (c :: s) = Some (gs, S n).
Proof. intros H. by rewrite re_match_lit, H. Qed.

Lemma text_ok_not_nl t : text_ok t → Forall (λ c, not_nl c = true) t.
Proof.
  intros Ht. eapply Forall_impl; [exact Ht|]. intros c [_ Hc]. unfold not_nl.
  by rewrite bool_decide_false.
Qed.

(** The lazy text group cannot stop inside a text without quotes. *)
Lemma lazy_text_stops t pat r :
  text_ok t →
  ∀ j, j < length t → re_match (Plain (Lit dq) :: pat) (drop j (t ++ r)) = None.
Proof.
  intros Ht j Hj. rewrite drop_app_le by lia.
  destruct (drop j t) as [|c t'] eqn:E.
  { apply (f_equal length) in E. rewrite length_drop in E. simpl in E. lia. }
  simpl. apply re_match_lit_fail.
  assert (Hc : c ∈ t) by (apply (subseteq_drop j t); rewrite E; left).
  unfold text_ok in Ht; rewrite Forall_forall in Ht. destruct (Ht c Hc) as [Hd _]. congruence.
Qed.

Local Ltac stops_tac := simpl; vm_compute; reflexivity.
Local Ltac forall_tac := repeat constructor.

Lemma msg_match_render_app m rest :
  groups_ok m → text_ok (m_text m) →
  msg_match (render_app m rest) = Some (msg_groups m, length (render m)).
Proof.
  intros (Hn & Hw & [Hs1 Hs2] & [Hc1 Hc2] & [Hv1 Hv2] & [Hg1 Hg2] & [Ha1 Ha2] & _) Ht.
  unfold msg_match, MSG_PATTERN, render, render_app, msg_groups.
  match goal with
  | |- re_match ?P ?s = Some (?g, ?N) =>
      assert (∃ n, re_match P s = Some (g, n) ∧ n = N) as (n & Hr & <-); [|exact Hr]
  end.
  eexists; split.
  { eapply re_match_star_none; [stops_tac|].
    eapply re_match_lits_Some.
    eapply re_match_plus_max; [done|forall_tac|stops_tac|].
    eapply re_match_lits_Some.
    eapply re_match_group_plus_max; [done|done| |].
    { destruct (m_name m); [done|]. stops_tac. }
    eapply re_match_star_max; [forall_tac|stops_tac|].
    eapply re_match_lits_Some.
    eapply re_match_star_max; [forall_tac|stops_tac|].
    eapply re_match_lits_Some.
    eapply re_match_star_max; [forall_tac|stops_tac|].
    eapply re_match_lits_Some.
    eapply re_match_group_plus_max; [done|done|stops_tac|].
    eapply re_match_lits_Some.
    eapply re_match_group_plus_max; [done|done|stops_tac|].
    eapply re_match_lits_Some.
    eapply re_match_group_plus_max; [done|done|stops_tac|].
    eapply re_match_lits_Some.
    eapply re_match_group_plus_max; [done|done|stops_tac|].
    eapply re_match_lits_Some.
    change (⟪"),"⟫ ++ ?r) with (")"%char :: ⟪","⟫ ++ r).
    eapply re_match_group_plus_back1; [done|done|stops_tac|stops_tac| |].
    { apply re_match_lit_fail. done. }
    change (")"%char :: ⟪","⟫ ++ ?r) with (⟪"),"⟫ ++ r).
    eapply re_match_lits_Some.
    eapply re_match_star_max; [forall_tac|stops_tac|].
    eapply re_match_lit_Some.
    eapply re_match_group_lazy; [by apply text_ok_not_nl| |].
    { by apply lazy_text_stops. }
    eapply re_match_lit_Some.
    eapply re_match_star_max; [forall_tac|stops_tac|].
    eapply re_match_lits_Some.
    eapply re_match_star_none; [stops_tac|].
    rewrite <- (app_nil_r (lits ⟪";"⟫)).
    eapply re_match_lits_Some. reflexivity. }
  rewrite !length_app. simpl. rewrite !length_app. simpl. lia.
Qed.

Lemma render_app_app m rest : render_app m rest = render m ++ rest.
Proof.
  unfold render, render_app. rewrite <- !app_assoc. simpl. rewrite <- !app_assoc.
  reflexivity.
Qed.

(** C5: A definition written the way [msgdm.cc] writes it, followed by any
    text, is matched with exactly its fields, and the match ends right
    after its [;]. *)
Theorem msg_match_render m rest :
  groups_ok m → text_ok (m_text m) →
  msg_match (render m ++ rest) = Some (msg_groups m, length (render m)).
Proof. intros Hg Ht. rewrite <- render_app_app. by apply msg_match_render_app. Qed.

Local Ltac pm_peel H :=
  repeat match type of H with
  | pmatch (lits _ ++ _) _ _ _ => apply pmatch_lits_inv in H as (? & ? & _ & _ & H)
  | pmatch (Plain _ :: _) _ _ _ =>
      apply pmatch_plain_inv in H as (? & ? & ? & _ & ?Hacc & H & _)
  | pmatch (Group _ :: _) _ _ _ =>
      apply pmatch_group_inv in H as (? & ? & ? & ? & _ & ?Hacc & H & -> & _)
  | pmatch (lits ?l) _ _ _ => rewrite <- (app_nil_r (lits l)) in H
  end;
  apply pmatch_nil_inv in H as [-> _].

Lemma accepts_plus_inv p w : accepts (Plus p) w → w ≠ [] ∧ Forall (λ c, p c = true) w.
Proof. by inversion 1. Qed.

Lemma accepts_lazy_inv p w : accepts (LazyStar p) w → Forall (λ c, p c = true) w.
Proof. by inversion 1. Qed.

(** Every match yields seven groups of the shape the pattern allows, and
    ends inside the buffer. *)
Theorem msg_match_shape buff gs n :
  msg_match buff = Some (gs, n) →
  ∃ m, gs = msg_groups m ∧ groups_ok m ∧ n ≤ length buff.
Proof.
  intros H%re_match_sound. pose proof (pmatch_le _ _ _ _ H) as Hle.
  unfold MSG_PATTERN in H. pm_peel H.
  repeat match goal with
  | Ha : accepts (Plus _) _ |- _ => apply accepts_plus_inv in Ha as [? ?]
  | Ha : accepts (LazyStar _) _ |- _ => apply accepts_lazy_inv in Ha
  | Ha : accepts _ _ |- _ => clear Ha
  end.
  eexists (Msg _ _ _ _ _ _ _). split; [reflexivity|]. split; [|exact Hle].
  unfold groups_ok, field_ok. simpl. naive_solver.
Qed.

(** A match starts with [ErrorId] after optional whitespace, and at least
    one whitespace character follows it. *)
Lemma msg_match_prefix buff gs n :
  msg_match buff = Some (gs, n) →
  ∃ ws sp t, buff = ws ++ ⟪"ErrorId"⟫ ++ sp ++ t ∧ all_space ws ∧ sp ≠ [] ∧ all_space sp.
Proof.
  intros H%re_match_sound. unfold MSG_PATTERN in H.
  apply pmatch_plain_inv in H as (ws & s1 & ? & -> & Hws & H & _).
  apply pmatch_lits_inv in H as (s2 & ? & -> & _ & H).
  apply pmatch_plain_inv in H as (sp & t & ? & -> & Hsp & _ & _).
  inversion Hws; inversion Hsp; subst. by exists ws, sp, t.
Qed.

(** ** Examples *)

Lemma msg_match_render_witness :
  msg_match (render (Msg ⟪"NoSuchFile"⟫ ⟪"ES_DM"⟫ ⟪"7"⟫ ⟪"E_WARN"⟫ ⟪"EV_EMPTY"⟫ ⟪"1"⟫ ⟪"%path%"⟫) ++ ⟪" rest"⟫) =
    Some ([⟪"NoSuchFile"⟫; ⟪"ES_DM"⟫; ⟪"7"⟫; ⟪"E_WARN"⟫; ⟪"EV_EMPTY"⟫; ⟪"1"⟫; ⟪"%path%"⟫],
          length (render (Msg ⟪"NoSuchFile"⟫ ⟪"ES_DM"⟫ ⟪"7"⟫ ⟪"E_WARN"⟫ ⟪"EV_EMPTY"⟫ ⟪"1"⟫ ⟪"%path%"⟫))).
Proof.
  apply msg_match_render; unfold groups_ok, field_ok, text_ok, not_comma, not_nl;
    apply (bool_decide_unpack _); by vm_compute.
Defined.

End MsgPattern.
