(* ===== verification/Scanner.v ===== *)
(** * The scanner [parse_msgdm] (lines 166-219)

    The input file is read with [readlines] in text mode (universal
    newlines), and each physical line goes through [scan_line], the body
    of the [for] loop: strip, skip blank lines, track block comments, cut
    line comments unless the [//] looks quoted, skip [#] lines, append to
    the buffer and try [MSG_PATTERN].  The loop state of the Python code
    ([lineno], [multiline_comment], [buff], [ret]) is the record
    [scan_state]; the two [raise Exception] are the constructors of
    [parse_error].  [reachable] is the step relation of the loop, with
    the invariants proved by rule induction. *)

From S2P Require Import Prelude PyStr Regex MsgPattern.

Module Scanner.
Import PyStr MsgPattern.

(** ** Data *)

(** The two exceptions [parse_msgdm] raises, with their line number. *)
Inductive parse_error : Type :=
| ExtraAfterClose (rest : str) (lineno : nat)   (** line 183 *)
| ExtraBeforeOpen (lineno : nat).               (** line 191 *)

Definition error_line (e : parse_error) : nat :=
  match e with ExtraAfterClose _ n | ExtraBeforeOpen n => n end.

(** The local variables of the loop. *)
Record scan_state := ScanState {
  lineno : nat;
  multiline_comment : bool;
  buff : str;
  ret : list msg
}.

Definition scan_init : scan_state := ScanState 0 false [] [].

Definition set_lineno (st : scan_state) (n : nat) : scan_state :=
  ScanState n (multiline_comment st) (buff st) (ret st).
Definition set_comment (st : scan_state) (b : bool) : scan_state :=
  ScanState (lineno st) b (buff st) (ret st).
Definition set_buff (st : scan_state) (b : str) : scan_state :=
  ScanState (lineno st) (multiline_comment st) b (ret st).

(** ** One line *)

Definition cr : ascii := "013"%char.

(** [ret.append([m.group(1).strip(), ..., m.group(7).strip()])]. *)
Definition record_of_groups (gs : list str) : option msg :=
  match gs with
  | [g1; g2; g3; g4; g5; g6; g7] =>
      Some (Msg (strip g1) (strip g2) (strip g3) (strip g4) (strip g5) (strip g6) (strip g7))
  | _ => None
  end.

(** Lines 194-205: the line comment.  [None] is the [continue] of
    line 205; [Some l] is the text that goes on. *)
Definition cut_line_comment (line : str) : option str :=
  match find ⟪"//"⟫ line with
  | Some p =>
      let b := take p line in
      let a := drop (p + 2) line in
      if Nat.odd (count_char dq b) && Nat.odd (count_char dq a) then Some line
      else let l := strip (take p line) in
           if bool_decide (length l ≤ 0) then None else Some l
  | None => Some line
  end.

(** Lines 209-218: append to the buffer, match, record, consume. *)
Definition feed (st : scan_state) (line : str) : scan_state :=
  let b := buff st ++ line in
  match msg_match b with
  | Some (gs, e) =>
      match record_of_groups gs with
      | Some m => ScanState (lineno st) (multiline_comment st) (drop e b) (ret st ++ [m])
      | None => set_buff st b
      end
  | None => set_buff st b
  end.

(** Lines 186-218, outside a block comment. *)
Definition scan_code (st : scan_state) (line : str) : result parse_error scan_state :=
  match find ⟪"/*"⟫ line with
  | Some p =>
      if bool_decide (0 < length (strip (take p line)))
      then Err (ExtraBeforeOpen (lineno st))
      else Ok (set_comment st true)
  | None =>
      match cut_line_comment line with
      | None => Ok st
      | Some l =>
          if bool_decide (head l = Some "#"%char) then Ok st
          else Ok (feed st l)
      end
  end.

(** Lines 177-185, inside a block comment. *)
Definition scan_comment (st : scan_state) (line : str) : result parse_error scan_state :=
  match find ⟪"*/"⟫ line with
  | Some p =>
      let rest := strip (drop (p + 2) line) in
      if bool_decide (0 < length rest)
      then Err (ExtraAfterClose rest (lineno st))
      else Ok (set_comment st false)
  | None => Ok st
  end.

(** The body of the [for] loop (lines 173-218). *)
Definition scan_line (st : scan_state) (raw : str) : result parse_error scan_state :=
  let st := set_lineno st (S (lineno st)) in
  let line := strip raw in
  if bool_decide (length line ≤ 0) then Ok st
  else if multiline_comment st then scan_comment st line
  else scan_code st line.

Fixpoint scan_lines (st : scan_state) (lines : list str) : result parse_error scan_state :=
  match lines with
  | [] => Ok st
  | l :: ls => scan_line st l ≫= λ st', scan_lines st' ls
  end.

(** ** Reading the file *)

(** Universal newlines: [\r\n] and [\r] read as [\n]. *)
Fixpoint translate_newlines (s : str) : str :=
  match s with
  | c :: s' =>
      if bool_decide (c = cr) then
        match s' with
        | d :: s'' => if bool_decide (d = nl) then nl :: translate_newlines s''
                      else nl :: translate_newlines s'
        | [] => [nl]
        end
      else c :: translate_newlines s'
  | [] => []
  end.

Fixpoint split_lines (cur : str) (s : str) : list str :=
  match s with
  | [] => if bool_decide (cur = []) then [] else [cur]
  | c :: s' =>
      if bool_decide (c = nl) then (cur ++ [nl]) :: split_lines [] s'
      else split_lines (cur ++ [c]) s'
  end.

(** [f.readlines()]: the lines with their terminator. *)
Definition readlines (contents : str) : list str :=
  split_lines [] (translate_newlines contents).

(** [parse_msgdm(filename)] on the contents of the file. *)
Definition parse_msgdm (contents : str) : result parse_error (list msg) :=
  scan_lines scan_init (readlines contents) ≫= λ st, mret (ret st).

(** ** The loop as a step relation *)

(** States the loop reaches from its initial state. *)
Inductive reachable : scan_state → Prop :=
| reach_init : reachable scan_init
| reach_step st l st' : reachable st → scan_line st l = Ok st' → reachable st'.

(** What the code promises of every record it returns. *)
Definition field_rec_ok (f : str) : Prop :=
  stripped f ∧ Forall (λ c, not_comma c = true) f.

Definition record_ok (m : msg) : Prop :=
  m_name m ≠ [] ∧ Forall (λ c, isword c = true) (m_name m) ∧
  field_rec_ok (m_sub m) ∧ field_rec_ok (m_code m) ∧ field_rec_ok (m_sev m) ∧
  field_rec_ok (m_gen m) ∧ field_rec_ok (m_args m) ∧
  stripped (m_text m) ∧ Forall (λ c, not_nl c = true) (m_text m).

(** ** Lemmas *)

Lemma scan_lines_app st l1 l2 :
  scan_lines st (l1 ++ l2) = scan_lines st l1 ≫= λ st', scan_lines st' l2.
Proof.
  revert st; induction l1 as [|l l1 IH]; intros st; simpl; [done|].
  destruct (scan_line st l); simpl; [apply IH|done].
Qed.

Lemma scan_lines_cons_Ok st l ls st' :
  scan_lines st (l :: ls) = Ok st' → ∃ st1, scan_line st l = Ok st1 ∧ scan_lines st1 ls = Ok st'.
Proof. simpl. intros (st1 & ? & ?)%result_bind_Ok_inv. eauto. Qed.

Lemma feed_lineno st l : lineno (feed st l) = lineno st.
Proof. unfold feed. by repeat case_match. Qed.

Lemma feed_comment st l : multiline_comment (feed st l) = multiline_comment st.
Proof. unfold feed. by repeat case_match. Qed.

Lemma scan_code_lineno st l st' : scan_code st l = Ok st' → lineno st' = lineno st.
Proof.
  unfold scan_code. repeat case_match; intros [=]; subst; rewrite ?feed_lineno; done.
Qed.

Lemma scan_comment_lineno st l st' : scan_comment st l = Ok st' → lineno st' = lineno st.
Proof. unfold scan_comment. repeat case_match; intros [=]; subst; done. Qed.

Lemma scan_line_lineno st l st' : scan_line st l = Ok st' → lineno st' = S (lineno st).
Proof.
  unfold scan_line. case_bool_decide; [intros [= <-]; done|].
  case_match; [apply scan_comment_lineno|apply scan_code_lineno].
Qed.

(** [lineno] counts the lines read. *)
Lemma scan_lines_lineno st ls st' :
  scan_lines st ls = Ok st' → lineno st' = lineno st + length ls.
Proof.
  revert st; induction ls as [|l ls IH]; intros st; simpl; [intros [= <-]; lia|].
  intros (st1 & H1 & H2)%result_bind_Ok_inv.
  apply scan_line_lineno in H1. apply IH in H2. lia.
Qed.

Lemma scan_line_error_line st l e : scan_line st l = Err e → error_line e = S (lineno st).
Proof.
  unfold scan_line, scan_code, scan_comment.
  repeat case_match; intros [=]; subst; done.
Qed.

Lemma isword_not_space c : isword c = true → isspace c = false.
Proof. destruct c as [[] [] [] [] [] [] [] []]; by vm_compute. Qed.

Lemma record_of_groups_ok buff gs e m :
  msg_match buff = Some (gs, e) → record_of_groups gs = Some m → record_ok m.
Proof.
  intros (m0 & -> & (Hn & Hw & [_ H1] & [_ H2] & [_ H3] & [_ H4] & [_ H5] & Ht) & _)%msg_match_shape.
  intros [= <-]. unfold record_ok, field_rec_ok; simpl.
  rewrite (strip_stripped (m_name m0)).
  2: { apply stripped_nonspace. eapply Forall_impl; [exact Hw|]. apply isword_not_space. }
  split_and!; try done; auto using strip_is_stripped, Forall_strip.
Qed.

Lemma feed_ret st l : ∃ ms, ret (feed st l) = ret st ++ ms ∧ Forall record_ok ms.
Proof.
  unfold feed. destruct (msg_match (buff st ++ l)) as [[gs e]|] eqn:E.
  - destruct (record_of_groups gs) as [m|] eqn:R; simpl.
    + exists [m]. split; [done|]. constructor; [|done]. by eapply record_of_groups_ok.
    + exists []. by rewrite app_nil_r.
  - exists []. by rewrite app_nil_r.
Qed.

Lemma scan_line_ret st l st' :
  scan_line st l = Ok st' → ∃ ms, ret st' = ret st ++ ms ∧ Forall record_ok ms.
Proof.
  unfold scan_line, scan_code, scan_comment.
  repeat case_match; intros [=]; subst; simpl;
    try (exists []; split; [by rewrite app_nil_r|done]).
  all: exact (feed_ret _ _).
Qed.

(** ** Theorems *)

(** Every state the loop reaches holds only records of the shape
    [MSG_PATTERN] and the [strip] calls give. *)
Lemma reachable_records_ok st : reachable st → Forall record_ok (ret st).
Proof.
  induction 1 as [|st l st' _ IH Hs]; [constructor|].
  apply scan_line_ret in Hs as (ms & -> & Hms). by apply Forall_app.
Qed.

Lemma scan_lines_reachable st ls st' :
  reachable st → scan_lines st ls = Ok st' → reachable st'.
Proof.
  revert st; induction ls as [|l ls IH]; intros st Hr; simpl; [by intros [= <-]|].
  intros (st1 & H1 & H2)%result_bind_Ok_inv. eapply IH; [|exact H2]. by econstructor.
Qed.

(** A raised error names the line that raised it: the lines before it
    are read without error, and its number is its position in the file. *)
Lemma scan_lines_error st ls e :
  scan_lines st ls = Err e →
  ∃ i l st', ls !! i = Some l ∧ scan_lines st (take i ls) = Ok st' ∧
    scan_line st' l = Err e ∧ error_line e = lineno st + S i.
Proof.
  revert st; induction ls as [|l ls IH]; intros st; simpl; [done|].
  destruct (scan_line st l) as [st1|e1] eqn:E; simpl.
  - intros (i & l' & st' & ? & ? & ? & ?)%IH. exists (S i), l', st'. simpl.
    rewrite E. apply scan_line_lineno in E. split_and!; auto. lia.
  - intros [= <-]. exists 0, l, st. split_and!; auto.
    rewrite (scan_line_error_line _ _ _ E). lia.
Qed.

(** ** Round trip: files written the way [msgdm.cc] is written *)

(** A character of an [ErrorOf] field in the source file: no slash (so
    no comment marker), no line break. *)
Definition plain_char (c : ascii) : Prop := c ≠ "/"%char ∧ c ≠ nl ∧ c ≠ cr.

(** A definition that fits on one source line and that the scanner
    reads back: the groups [MSG_PATTERN] allows, fields of plain
    characters, a text without double quote, line break, [/*] or [//]. *)
Definition src_ok (m : msg) : Prop :=
  groups_ok m ∧ text_ok (m_text m) ∧ Forall (λ c, c ≠ cr) (m_text m) ∧
  Forall plain_char (m_sub m) ∧ Forall plain_char (m_code m) ∧
  Forall plain_char (m_sev m) ∧ Forall plain_char (m_gen m) ∧
  Forall plain_char (m_args m) ∧
  has2 "/" "*" (m_text m) = false ∧ has2 "/" "/" (m_text m) = false.

(** The record the code appends for a definition: its fields stripped. *)
Definition strip_msg (m : msg) : msg :=
  Msg (strip (m_name m)) (strip (m_sub m)) (strip (m_code m)) (strip (m_sev m))
      (strip (m_gen m)) (strip (m_args m)) (strip (m_text m)).

Lemma render_last m : ∃ r, render m = r ++ [";"%char].
Proof.
  unfold render, render_app. eexists.
  rewrite app_nil_r, !app_assoc, (app_cons_assoc _ _ dq), !app_assoc,
    (app_cons_assoc _ _ dq), !app_assoc.
  reflexivity.
Qed.

Lemma isword_plain c : isword c = true → plain_char c.
Proof.
  unfold plain_char. destruct c as [[] [] [] [] [] [] [] []]; vm_compute; intros;
    try discriminate; split_and!; congruence.
Qed.

Lemma plain_not_slash s : Forall plain_char s → Forall (λ c, c ≠ "/"%char) s.
Proof. intros H. eapply Forall_impl; [exact H|]. by intros c [? _]. Qed.

Lemma find_open_None s : has2 "/" "*" s = false → find ⟪"/*"⟫ s = None.
Proof. apply find2_None. Qed.
Lemma find_line_None s : has2 "/" "/" s = false → find ⟪"//"⟫ s = None.
Proof. apply find2_None. Qed.
Lemma find_close_None s : has2 "*" "/" s = false → find ⟪"*/"⟫ s = None.
Proof. apply find2_None. Qed.

(** The rendered line around its quoted text. *)
Definition render_pre (m : msg) : str :=
  ⟪"ErrorId"⟫ ++ ⟪" "⟫ ++ ⟪"MsgDm::"⟫ ++ m_name m ++ ⟪" "⟫ ++ ⟪"="⟫ ++ ⟪" "⟫ ++
  ⟪"{"⟫ ++ ⟪" "⟫ ++ ⟪"ErrorOf("⟫ ++
  m_sub m ++ ⟪","⟫ ++ m_code m ++ ⟪","⟫ ++ m_sev m ++ ⟪","⟫ ++
  m_gen m ++ ⟪","⟫ ++ m_args m ++ ⟪"),"⟫ ++ ⟪" "⟫.
Definition render_post : str := ⟪" "⟫ ++ ⟪"}"⟫ ++ ⟪";"⟫.

Lemma render_split m : render m = render_pre m ++ dq :: m_text m ++ dq :: render_post.
Proof.
  unfold render, render_app, render_pre, render_post. rewrite app_nil_r, <- !app_assoc.
  reflexivity.
Qed.

(** The fields of [ErrorOf], in the order they are written. *)
Definition of_fields (m : msg) : str := m_sub m ++ m_code m ++ m_sev m ++ m_gen m ++ m_args m.

Lemma isword_not_dq c : isword c = true → c ≠ dq.
Proof. destruct c as [[] [] [] [] [] [] [] []]; vm_compute; congruence. Qed.

Lemma render_pre_no_slash_of m :
  groups_ok m → Forall (λ c, c ≠ "/"%char) (of_fields m) → Forall (λ c, c ≠ "/"%char) (render_pre m).
Proof.
  intros (_ & Hw & _) Hf. unfold of_fields in Hf. repeat (apply Forall_app in Hf as [? Hf]).
  assert (Forall (λ c, c ≠ "/"%char) (m_name m)).
  { eapply Forall_impl; [exact Hw|]. intros c Hc. by apply isword_plain. }
  unfold render_pre. repeat (apply Forall_app; split); try done; repeat constructor; discriminate.
Qed.

Lemma render_pre_no_dq m :
  groups_ok m → Forall (λ c, c ≠ dq) (of_fields m) → Forall (λ c, c ≠ dq) (render_pre m).
Proof.
  intros (_ & Hw & _) Hf. unfold of_fields in Hf. repeat (apply Forall_app in Hf as [? Hf]).
  assert (Forall (λ c, c ≠ dq) (m_name m)) by (eapply Forall_impl; [exact Hw|]; apply isword_not_dq).
  unfold render_pre. repeat (apply Forall_app; split); try done; repeat constructor; discriminate.
Qed.

Lemma render_pre_no_slash m :
  src_ok m → Forall (λ c, c ≠ "/"%char) (render_pre m).
Proof.
  intros (Hg & _ & _ & H1 & H2 & H3 & H4 & H5 & _). apply render_pre_no_slash_of; [done|].
  apply plain_not_slash in H1, H2, H3, H4, H5. unfold of_fields. by repeat (apply Forall_app; split).
Qed.

Lemma render_post_no_slash : Forall (λ c, c ≠ "/"%char) render_post.
Proof. repeat constructor; discriminate. Qed.

Lemma render_has2_of m y :
  y ≠ dq → Forall (λ c, c ≠ "/"%char) (render_pre m) → has2 "/" y (m_text m) = false →
  has2 "/" y (render m) = false.
Proof.
  intros Hy Hp Ht. pose proof render_post_no_slash as Hs.
  rewrite render_split, has2_app, has2_cons, has2_app, has2_cons, Ht.
  rewrite !has2_nofirst by done. rewrite (last_nofirst _ (render_pre m)) by done.
  rewrite (bool_decide_false (dq = _)) by discriminate.
  rewrite (bool_decide_false (head (dq :: _) = _)) by (simpl; congruence).
  by rewrite !andb_false_r.
Qed.

Lemma render_has2 m y :
  y ≠ dq → src_ok m → has2 "/" y (m_text m) = false → has2 "/" y (render m) = false.
Proof. intros Hy Hm. apply render_has2_of; [done|by apply render_pre_no_slash]. Qed.

Lemma render_stripped m : stripped (render m).
Proof.
  split.
  - change (render m) with ("E"%char :: tail (render m)). by apply lstrip_nonspace.
  - destruct (render_last m) as [r ->]. rewrite reverse_snoc. by apply lstrip_nonspace.
Qed.

Lemma render_length m : 0 < length (render m).
Proof. destruct (render_last m) as [r ->]. rewrite length_app. simpl. lia. Qed.

(** A definition fed to an empty buffer: its record is appended and the
    buffer is left empty. *)
Lemma feed_render st m :
  buff st = [] → groups_ok m → text_ok (m_text m) →
  feed st (render m) = ScanState (lineno st) (multiline_comment st) [] (ret st ++ [strip_msg m]).
Proof.
  intros Hb Hg Ht. unfold feed. rewrite Hb, app_nil_l.
  change (render m) with (render_app m []) at 1.
  rewrite msg_match_render_app by done. cbn [record_of_groups msg_groups].
  change (render_app m []) with (render m). by rewrite drop_all.
Qed.

(** A definition line read outside a comment with an empty buffer adds
    its record and leaves the buffer empty. *)
Lemma scan_line_record st m :
  multiline_comment st = false → buff st = [] → src_ok m →
  scan_line st (render m) = Ok (ScanState (S (lineno st)) false [] (ret st ++ [strip_msg m])).
Proof.
  intros Hc Hb Hm. pose proof Hm as (Hg & Ht & _).
  unfold scan_line. rewrite (strip_stripped _ (render_stripped m)).
  rewrite bool_decide_false by (pose proof (render_length m); lia).
  simpl. rewrite Hc. unfold scan_code, cut_line_comment.
  rewrite find_open_None by (apply render_has2; [discriminate|done|apply Hm]).
  rewrite find_line_None by (apply render_has2; [discriminate|done|apply Hm]).
  rewrite bool_decide_false by (simpl; congruence).
  rewrite feed_render; [simpl; by rewrite Hc|done|done|done].
Qed.

Lemma slash_nonspace : isspace "/"%char = false.
Proof. reflexivity. Qed.
Lemma star_nonspace : isspace "*"%char = false.
Proof. reflexivity. Qed.
Lemma hash_nonspace : isspace "#"%char = false.
Proof. reflexivity. Qed.

Lemma scan_line_blank st ws : all_space ws → scan_line st ws = Ok (set_lineno st (S (lineno st))).
Proof.
  intros H. unfold scan_line. rewrite strip_all_space by done.
  by rewrite bool_decide_true by (simpl; lia).
Qed.

(** A [//] line: skipped. *)
Lemma scan_line_comment_line st c :
  multiline_comment st = false → has2 "/" "*" c = false → head c ≠ Some "*"%char →
  scan_line st (⟪"//"⟫ ++ c) = Ok (set_lineno st (S (lineno st))).
Proof.
  intros Hc H1 H2. unfold scan_line.
  change (⟪"//"⟫ ++ c) with ("/"%char :: "/"%char :: c).
  rewrite strip_cons_nonspace, rstrip_cons_nonspace by apply slash_nonspace.
  rewrite bool_decide_false by (simpl; lia). simpl (multiline_comment _). rewrite Hc.
  unfold scan_code. rewrite find_open_None.
  2: { rewrite !has2_cons. rewrite (has2_prefix _ _ _ _ (rstrip_prefix c) H1).
       destruct (decide (rstrip c = [])) as [->|Hne]; [done|].
       rewrite (head_prefix _ _ (rstrip_prefix c) Hne).
       rewrite (bool_decide_false (head c = _)) by done. by rewrite andb_false_r. }
  unfold cut_line_comment.
  assert (find ⟪"//"⟫ ("/"%char :: "/"%char :: rstrip c) = Some 0) as -> by reflexivity.
  done.
Qed.

Lemma cut_line_comment_head x r l :
  x ≠ "/"%char → isspace x = false → cut_line_comment (x :: r) = Some l → head l = Some x.
Proof.
  intros Hx Hs. unfold cut_line_comment.
  destruct (find ⟪"//"⟫ (x :: r)) as [q|] eqn:E; [|by intros [= <-]].
  apply find_spec in E as [E _]. destruct q as [|q].
  { simpl in E. rewrite bool_decide_false in E by congruence. done. }
  case_match; [by intros [= <-]|].
  simpl. rewrite strip_cons_nonspace by done. case_bool_decide; [done|].
  by intros [= <-].
Qed.

(** A [#] line: skipped, whatever follows the [#]. *)
Lemma scan_line_pragma st p :
  multiline_comment st = false → has2 "/" "*" p = false →
  scan_line st (⟪"#"⟫ ++ p) = Ok (set_lineno st (S (lineno st))).
Proof.
  intros Hc H1. unfold scan_line.
  change (⟪"#"⟫ ++ p) with ("#"%char :: p).
  rewrite strip_cons_nonspace by apply hash_nonspace.
  rewrite bool_decide_false by (simpl; lia). simpl (multiline_comment _). rewrite Hc.
  unfold scan_code. rewrite find_open_None.
  2: { rewrite has2_cons, (has2_prefix _ _ _ _ (rstrip_prefix p) H1).
       by rewrite (bool_decide_false ("#"%char = _)). }
  destruct (cut_line_comment ("#"%char :: rstrip p)) as [l|] eqn:E; [|done].
  apply cut_line_comment_head in E; [|done|apply hash_nonspace].
  by rewrite bool_decide_true.
Qed.

(** The first line of a block comment: whatever follows [/*] is dropped. *)
Lemma scan_line_block_open st f :
  multiline_comment st = false →
  scan_line st (⟪"/*"⟫ ++ f) = Ok (set_comment (set_lineno st (S (lineno st))) true).
Proof.
  intros Hc. unfold scan_line.
  change (⟪"/*"⟫ ++ f) with ("/"%char :: "*"%char :: f).
  rewrite strip_cons_nonspace, rstrip_cons_nonspace by (apply slash_nonspace || apply star_nonspace).
  rewrite bool_decide_false by (simpl; lia). simpl (multiline_comment _). rewrite Hc.
  unfold scan_code.
  assert (find ⟪"/*"⟫ ("/"%char :: "*"%char :: rstrip f) = Some 0) as -> by reflexivity.
  done.
Qed.

Lemma scan_line_block_mid st x :
  multiline_comment st = true → has2 "*" "/" x = false →
  scan_line st x = Ok (set_lineno st (S (lineno st))).
Proof.
  intros Hc H1. unfold scan_line. case_bool_decide; [done|].
  simpl (multiline_comment _). rewrite Hc. unfold scan_comment.
  by rewrite find_close_None by (by apply has2_strip).
Qed.

(** The last line of a block comment, ending with [*/]. *)
Lemma scan_line_block_close st l :
  multiline_comment st = true → Forall (λ c, c ≠ "*"%char) l →
  scan_line st (l ++ ⟪"*/"⟫) = Ok (set_comment (set_lineno st (S (lineno st))) false).
Proof.
  intros Hc Hl. unfold scan_line.
  change ⟪"*/"⟫ with (["*"%char] ++ ["/"%char]).
  rewrite strip_app_nonspace_end by apply slash_nonspace.
  rewrite lstrip_snoc_nonspace by apply star_nonspace.
  set (L := lstrip l).
  assert (HL : Forall (λ c, c ≠ "*"%char) L) by (eapply Forall_suffix; [apply lstrip_suffix|done]).
  rewrite bool_decide_false by (rewrite !length_app; simpl; lia).
  simpl (multiline_comment _). rewrite Hc. unfold scan_comment.
  assert (find ⟪"*/"⟫ ((L ++ ["*"%char]) ++ ["/"%char]) = Some (length L)) as ->.
  { apply find_spec. rewrite <- app_assoc. split.
    - by rewrite drop_app_length.
    - intros q Hq. rewrite drop_app_le by lia.
      destruct (drop_lt_cons L q Hq) as (c & L' & -> & Hc').
      rewrite Forall_forall in HL. specialize (HL c Hc'). simpl.
      by rewrite bool_decide_false by congruence. }
  rewrite <- app_assoc. replace (length L + 2) with (length (L ++ ["*"%char; "/"%char])) by
    (rewrite length_app; simpl; lia).
  rewrite drop_all. done.
Qed.

(** *** Source files *)

(** The kinds of lines [msgdm.cc] is made of. *)
Inductive src_item : Type :=
| SRecord (m : msg)                                  (** one definition *)
| SBlank (ws : str)                                  (** a blank line *)
| SComment (c : str)                                 (** [//c] *)
| SPragma (p : str)                                  (** [#p] *)
| SBlock (first : str) (middle : list str) (last : str).  (** [/*first] ... [last*/] *)

Definition item_lines (it : src_item) : list str :=
  match it with
  | SRecord m => [render m]
  | SBlank ws => [ws]
  | SComment c => [⟪"//"⟫ ++ c]
  | SPragma p => [⟪"#"⟫ ++ p]
  | SBlock f mid l => (⟪"/*"⟫ ++ f) :: mid ++ [l ++ ⟪"*/"⟫]
  end.

Definition item_records (it : src_item) : list msg :=
  match it with SRecord m => [strip_msg m] | _ => [] end.

Definition line_chars (l : str) : Prop := Forall (λ c, c ≠ nl ∧ c ≠ cr) l.

Definition item_ok (it : src_item) : Prop :=
  Forall line_chars (item_lines it) ∧
  match it with
  | SRecord m => src_ok m
  | SBlank ws => all_space ws
  | SComment c => has2 "/" "*" c = false ∧ head c ≠ Some "*"%char
  | SPragma p => has2 "/" "*" p = false
  | SBlock f mid l => Forall (λ x, has2 "*" "/" x = false) mid ∧ Forall (λ c, c ≠ "*"%char) l
  end.

(** A file is its lines, each ended by a newline. *)
Definition unlines (ls : list str) : str := concat (map (λ l, l ++ [nl]) ls).

Definition src_file (items : list src_item) : str := unlines (concat (map item_lines items)).

Lemma scan_lines_block_mid st mid :
  multiline_comment st = true → Forall (λ x, has2 "*" "/" x = false) mid →
  scan_lines st mid = Ok (set_lineno st (lineno st + length mid)).
Proof.
  revert st; induction mid as [|x mid IH]; intros st Hc Hm; simpl.
  - rewrite Nat.add_0_r. by destruct st.
  - inversion Hm; subst. rewrite scan_line_block_mid by done. simpl.
    rewrite IH by done. simpl. do 2 f_equal. lia.
Qed.

Lemma scan_lines_single st l : scan_lines st [l] = scan_line st l.
Proof. simpl. by destruct (scan_line st l). Qed.

Lemma scan_item st it :
  multiline_comment st = false → buff st = [] → item_ok it →
  scan_lines st (item_lines it) =
    Ok (ScanState (lineno st + length (item_lines it)) false [] (ret st ++ item_records it)).
Proof.
  intros Hc Hb [_ Hit]. destruct st as [n c b r]; cbn [multiline_comment buff] in Hc, Hb; subst.
  destruct it as [m|ws|cm|p|f mid l]; cbn [item_lines item_records] in *.
  - rewrite scan_lines_single, scan_line_record by done. cbn. by rewrite Nat.add_1_r.
  - rewrite scan_lines_single, scan_line_blank by done. cbn. by rewrite Nat.add_1_r, app_nil_r.
  - rewrite scan_lines_single, scan_line_comment_line by (done || apply Hit). cbn.
    by rewrite Nat.add_1_r, app_nil_r.
  - rewrite scan_lines_single, scan_line_pragma by done. cbn. by rewrite Nat.add_1_r, app_nil_r.
  - destruct Hit as [Hmid Hl]. cbn [scan_lines]. rewrite scan_line_block_open by done.
    rewrite result_bind_ok, scan_lines_app, scan_lines_block_mid by done.
    rewrite result_bind_ok, scan_lines_single, scan_line_block_close by done.
    unfold set_comment, set_lineno. cbn. rewrite length_app, app_nil_r. cbn. f_equal. f_equal. lia.
Qed.

Lemma scan_items st items :
  multiline_comment st = false → buff st = [] → Forall item_ok items →
  scan_lines st (concat (map item_lines items)) =
    Ok (ScanState (lineno st + length (concat (map item_lines items))) false []
                  (ret st ++ concat (map item_records items))).
Proof.
  revert st; induction items as [|it items IH]; intros st Hc Hb Hi; simpl.
  - rewrite Nat.add_0_r, app_nil_r. by destruct st; simpl in *; subst.
  - inversion Hi; subst. rewrite scan_lines_app, scan_item by done. simpl.
    rewrite IH by done. simpl. rewrite length_app, app_assoc. do 2 f_equal. lia.
Qed.

Lemma nl_space : isspace nl = true.
Proof. reflexivity. Qed.

(** The newline [readlines] keeps is stripped away. *)
Lemma scan_line_nl st l : scan_line st (l ++ [nl]) = scan_line st l.
Proof. unfold scan_line. by rewrite strip_snoc_space by apply nl_space. Qed.

Lemma scan_lines_nl st ls : scan_lines st (map (λ l, l ++ [nl]) ls) = scan_lines st ls.
Proof.
  revert st; induction ls as [|l ls IH]; intros st; simpl; [done|].
  rewrite scan_line_nl. destruct (scan_line st l); simpl; [apply IH|done].
Qed.

Lemma translate_newlines_id s : Forall (λ c, c ≠ cr) s → translate_newlines s = s.
Proof.
  induction 1 as [|c s Hc _ IH]; simpl; [done|].
  by rewrite bool_decide_false, IH.
Qed.

Lemma split_lines_line cur l rest :
  Forall (λ c, c ≠ nl) l →
  split_lines cur (l ++ nl :: rest) = (cur ++ l ++ [nl]) :: split_lines [] rest.
Proof.
  revert cur; induction l as [|c l IH]; intros cur Hl; simpl.
  - repeat case_bool_decide; done.
  - inversion Hl; subst. rewrite bool_decide_false by done.
    rewrite IH by done. by rewrite <- app_assoc.
Qed.

Lemma readlines_unlines ls :
  Forall line_chars ls → readlines (unlines ls) = map (λ l, l ++ [nl]) ls.
Proof.
  intros H. unfold readlines. rewrite translate_newlines_id.
  2: { unfold unlines. apply Forall_concat, Forall_fmap.
       eapply Forall_impl; [exact H|]. intros l Hl. apply Forall_app. split.
       - eapply Forall_impl; [exact Hl|]. naive_solver.
       - constructor; [done|constructor]. }
  induction H as [|l ls Hl _ IH]; [done|].
  change (unlines (l :: ls)) with ((l ++ [nl]) ++ unlines ls).
  rewrite <- app_assoc. change ([nl] ++ unlines ls) with (nl :: unlines ls).
  rewrite split_lines_line, IH; [done|].
  eapply Forall_impl; [exact Hl|]. naive_solver.
Qed.

(** C1: The scanner reads back exactly the definitions of a file made of
    definitions, blank lines, line comments, [#] lines and block
    comments, in order, with their fields stripped. *)
Theorem parse_msgdm_src_file items :
  Forall item_ok items →
  parse_msgdm (src_file items) = Ok (concat (map item_records items)).
Proof.
  intros H. unfold parse_msgdm, src_file.
  rewrite readlines_unlines.
  2: { apply Forall_concat, Forall_fmap. eapply Forall_impl; [exact H|]. by intros it [? _]. }
  rewrite scan_lines_nl, scan_items by done. done.
Qed.

(** ** The whole parse *)

(** C4: Every record [parse_msgdm] returns has the shape [MSG_PATTERN] and
    the [strip] calls give. *)
Theorem parse_msgdm_records_ok contents ms :
  parse_msgdm contents = Ok ms → Forall record_ok ms.
Proof.
  unfold parse_msgdm. intros (st & Hs & [= <-])%result_bind_Ok_inv.
  apply reachable_records_ok, (scan_lines_reachable scan_init (readlines contents)); [constructor|done].
Qed.

(** C12: A parse error carries the number, counted from 1, of the line of
    the file that raised it. *)
Theorem parse_msgdm_error_line contents e :
  parse_msgdm contents = Err e →
  ∃ i l st, readlines contents !! i = Some l ∧ scan_line st l = Err e ∧ error_line e = S i.
Proof.
  unfold parse_msgdm. destruct (scan_lines scan_init (readlines contents)) as [st|e'] eqn:E;
    simpl; [done|]. intros [= <-].
  destruct (scan_lines_error _ _ _ E) as (i & l & st' & Hl & _ & Hs & He).
  exists i, l, st'. split_and!; [done|done|]. by rewrite He.
Qed.

(** ** Lines the scanner mishandles *)

Lemma unlines_app l1 l2 : unlines (l1 ++ l2) = unlines l1 ++ unlines l2.
Proof. unfold unlines. by rewrite map_app, concat_app. Qed.

(** A file that starts with items of [src_item] and goes on with the
    lines [ls]: the scan of [ls] starts after the items, with their
    records, outside a comment and with an empty buffer. *)
Lemma parse_msgdm_src_app items ls :
  Forall item_ok items → Forall line_chars ls →
  parse_msgdm (src_file items ++ unlines ls) =
    scan_lines (ScanState (length (concat (map item_lines items))) false []
                          (concat (map item_records items))) ls ≫= λ st, mret (ret st).
Proof.
  intros Hi Hl. unfold parse_msgdm, src_file. rewrite <- unlines_app, readlines_unlines.
  2: { apply Forall_app. split; [|done]. apply Forall_concat, Forall_fmap.
       eapply Forall_impl; [exact Hi|]. by intros it [? _]. }
  rewrite map_app, scan_lines_app, scan_lines_nl, scan_items by done.
  by rewrite result_bind_ok, scan_lines_nl.
Qed.

(** A line that is neither a comment nor a [#] line goes to the buffer. *)
Lemma scan_line_feed st l :
  multiline_comment st = false → strip l = l → 0 < length l →
  has2 "/" "*" l = false → has2 "/" "/" l = false → head l ≠ Some "#"%char →
  scan_line st l = Ok (feed (set_lineno st (S (lineno st))) l).
Proof.
  intros Hc Hs Hn H1 H2 H3. unfold scan_line. rewrite Hs, bool_decide_false by lia.
  simpl (multiline_comment _). rewrite Hc. unfold scan_code, cut_line_comment.
  by rewrite find_open_None, find_line_None, bool_decide_false.
Qed.

Lemma scan_line_render st m :
  multiline_comment st = false → src_ok m →
  scan_line st (render m) = Ok (feed (set_lineno st (S (lineno st))) (render m)).
Proof.
  intros Hc Hm. apply scan_line_feed; [done|apply strip_stripped, render_stripped|apply render_length| | |].
  - apply render_has2; [discriminate|done|apply Hm].
  - apply render_has2; [discriminate|done|apply Hm].
  - simpl. congruence.
Qed.

Lemma feed_no_match st l : msg_match (buff st ++ l) = None → feed st l = set_buff st (buff st ++ l).
Proof. unfold feed. by intros ->. Qed.

(** [ErrorId] not followed by whitespace starts no match. *)
Lemma msg_match_ErrorId s :
  (∀ c r, s = c :: r → isspace c = false) → msg_match (⟪"ErrorId"⟫ ++ s) = None.
Proof.
  intros Hs. destruct (msg_match _) as [[gs n]|] eqn:E; [|done].
  apply msg_match_prefix in E as (ws & sp & t & Heq & Hws & Hsp & Hsps).
  destruct ws as [|w ws].
  - rewrite app_nil_l in Heq. apply app_inv_head in Heq. destruct sp as [|c sp]; [done|].
    inversion Hsps; subst. by rewrite (Hs c (sp ++ t) eq_refl) in *.
  - injection Heq as <- _. inversion Hws; discriminate.
Qed.

(** A buffer that starts with [ErrorIdM] keeps every later definition
    line, and never yields a record. *)
Lemma scan_lines_stuck st r ms :
  multiline_comment st = false → buff st = ⟪"ErrorId"⟫ ++ "M"%char :: r → Forall src_ok ms →
  ∃ st', scan_lines st (map render ms) = Ok st' ∧ ret st' = ret st.
Proof.
  revert st r; induction ms as [|m ms IH]; intros st r Hc Hb Hms; simpl; [by exists st|].
  inversion Hms; subst. rewrite scan_line_render by done. simpl.
  rewrite feed_no_match; simpl; rewrite Hb, <- app_assoc; [|by apply msg_match_ErrorId; intros ? ? [= <- _]].
  destruct (IH (set_buff (set_lineno st (S (lineno st))) (⟪"ErrorId"⟫ ++ ("M"%char :: r) ++ render m))
              (r ++ render m)) as (st' & -> & Hr); [done|done|done|].
  by exists st'.
Qed.

(** The first line of a definition split after [ErrorId]: [MsgDm::...]. *)
Lemma render_drop_8 m : ∃ r, drop 8 (render m) = "M"%char :: r ++ [";"%char].
Proof.
  destruct (render_last m) as [r Hr]. exists (drop 9 r).
  assert (9 ≤ length r).
  { apply (f_equal length) in Hr. rewrite length_app in Hr. unfold render, render_app in Hr.
    simpl in Hr. lia. }
  assert (drop 8 (render m) = "M"%char :: drop 9 (render m)) as -> by reflexivity.
  by rewrite Hr, drop_app_le by lia.
Qed.

Lemma render_drop_8_scan st m :
  multiline_comment st = false → src_ok m →
  scan_line st (drop 8 (render m)) = Ok (feed (set_lineno st (S (lineno st))) (drop 8 (render m))).
Proof.
  intros Hc Hm. destruct (render_drop_8 m) as [r Hr].
  assert (Hsuf : drop 8 (render m) `suffix_of` render m) by apply suffix_drop.
  apply scan_line_feed; [done| | | | |].
  - apply strip_stripped. rewrite Hr. split; [by apply lstrip_nonspace|].
    rewrite app_comm_cons, reverse_snoc. by apply lstrip_nonspace.
  - rewrite Hr. simpl. lia.
  - eapply has2_suffix; [exact Hsuf|]. apply render_has2; [discriminate|done|apply Hm].
  - eapply has2_suffix; [exact Hsuf|]. apply render_has2; [discriminate|done|apply Hm].
  - rewrite Hr. simpl. congruence.
Qed.

(** The [/*] test of line 187 runs first: inside a line comment it finds
    the [/*], with the [//] before it as the text that raises. *)
Lemma scan_line_open_in_line_comment st c1 c2 :
  multiline_comment st = false →
  scan_line st (⟪"//"⟫ ++ c1 ++ ⟪"/*"⟫ ++ c2) = Err (ExtraBeforeOpen (S (lineno st))).
Proof.
  intros Hc. unfold scan_line.
  change (⟪"//"⟫ ++ c1 ++ ⟪"/*"⟫ ++ c2) with ("/"%char :: "/"%char :: c1 ++ "/"%char :: "*"%char :: c2).
  rewrite strip_cons_nonspace, rstrip_cons_nonspace, rstrip_app_nonspace, rstrip_cons_nonspace
    by first [apply slash_nonspace | apply star_nonspace].
  rewrite bool_decide_false by (simpl; lia). simpl (multiline_comment _). rewrite Hc.
  unfold scan_code.
  set (L := "/"%char :: "/"%char :: c1 ++ "/"%char :: "*"%char :: rstrip c2).
  destruct (find ⟪"/*"⟫ L) as [[|p]|] eqn:E.
  - apply find_spec in E as [Hs _]. discriminate Hs.
  - change (take (S p) L) with ("/"%char :: take p (tail L)).
    rewrite strip_cons_nonspace, bool_decide_true by first [apply slash_nonspace | simpl; lia].
    done.
  - exfalso. apply find2_None in E. revert E. subst L.
    rewrite !has2_cons, has2_app, has2_cons. cbn [head].
    rewrite (bool_decide_true ("/"%char = _)), (bool_decide_true (Some "*"%char = _)) by done.
    by rewrite andb_true_l, ?orb_true_r, ?orb_true_l.
Qed.

(** Outside the [/*] of its first line, a definition holds no [*/] when its
    text holds none. *)
Lemma render_has2_close m : src_ok m → has2 "*" "/" (m_text m) = false → has2 "*" "/" (render m) = false.
Proof.
  intros Hm Ht. pose proof (render_pre_no_slash m Hm) as Hp.
  assert (Hs : Forall (λ c, c ≠ "/"%char) (dq :: render_post))
    by (constructor; [discriminate|apply render_post_no_slash]).
  rewrite render_split. apply has2_app_false; [by apply has2_nosecond| |].
  - rewrite has2_cons, (bool_decide_false (dq = _)) by discriminate. rewrite andb_false_l, orb_false_r.
    apply has2_app_false; [done|by apply has2_nosecond|].
    rewrite (bool_decide_false (head (dq :: _) = _)); [by rewrite andb_false_r|by intros [=]].
  - rewrite (bool_decide_false (head (dq :: _) = _)); [by rewrite andb_false_r|by intros [=]].
Qed.

(** C17: A line comment that mentions [/*] anywhere stops the parse with the
    error for text before a block comment, naming that line: the
    block-comment test runs before the line-comment test. *)
Theorem line_comment_with_open items c1 c2 :
  Forall item_ok items → line_chars (⟪"//"⟫ ++ c1 ++ ⟪"/*"⟫ ++ c2) →
  parse_msgdm (src_file items ++ unlines [⟪"//"⟫ ++ c1 ++ ⟪"/*"⟫ ++ c2]) =
    Err (ExtraBeforeOpen (S (length (concat (map item_lines items))))).
Proof.
  intros Hi Hl. rewrite parse_msgdm_src_app by (done || by constructor).
  cbn [scan_lines]. by rewrite scan_line_open_in_line_comment.
Qed.

(** C18: A block comment opened and closed on one line is taken as still
    open: the definitions after it are dropped without an error until a
    line holding [*/]. *)
Theorem one_line_block_comment items f ms :
  Forall item_ok items → line_chars (⟪"/*"⟫ ++ f ++ ⟪"*/"⟫) →
  Forall (λ m, item_ok (SRecord m) ∧ has2 "*" "/" (m_text m) = false) ms →
  parse_msgdm (src_file items ++ unlines ((⟪"/*"⟫ ++ f ++ ⟪"*/"⟫) :: map render ms)) =
    Ok (concat (map item_records items)).
Proof.
  intros Hi Hl Hms. rewrite parse_msgdm_src_app; [|done|].
  2: { constructor; [done|]. apply Forall_fmap. eapply Forall_impl; [exact Hms|].
       by intros m [[Hm _] _]; inversion Hm. }
  cbn [scan_lines]. rewrite scan_line_block_open by done. rewrite result_bind_ok.
  rewrite scan_lines_block_mid; [done|done|].
  apply Forall_fmap. eapply Forall_impl; [exact Hms|]. intros m [[_ Hm] Ht]. by apply render_has2_close.
Qed.

(** C19: Lines are joined without a separator: a definition broken between
    [ErrorId] and [MsgDm] becomes [ErrorIdMsgDm...], which never matches
    and stays at the front of the buffer, so it and every definition after
    it are dropped without an error. *)
Theorem split_definition_dropped items m ms :
  Forall item_ok items → item_ok (SRecord m) → Forall (λ m', item_ok (SRecord m')) ms →
  parse_msgdm (src_file items ++ unlines (⟪"ErrorId"⟫ :: drop 8 (render m) :: map render ms)) =
    Ok (concat (map item_records items)).
Proof.
  intros Hi [Hl Hm] Hms. rewrite parse_msgdm_src_app; [|done|].
  2: { constructor; [by repeat constructor|]. constructor.
       - inversion Hl; subst. eapply Forall_suffix; [apply suffix_drop|done].
       - apply Forall_fmap. eapply Forall_impl; [exact Hms|]. by intros m' [Hm' _]; inversion Hm'. }
  cbn [scan_lines]. rewrite scan_line_feed; [|done|reflexivity|simpl; lia|reflexivity|reflexivity|by intros [=]].
  rewrite result_bind_ok, feed_no_match by (vm_compute; reflexivity). cbn -[render drop].
  rewrite render_drop_8_scan by done. rewrite result_bind_ok.
  destruct (render_drop_8 m) as [r Hr]. rewrite Hr, feed_no_match.
  2: { apply (msg_match_ErrorId ("M"%char :: r ++ [";"%char])). by intros ? ? [= <- _]. }
  match goal with
  | |- scan_lines ?st _ ≫= _ = _ =>
      destruct (scan_lines_stuck st (r ++ [";"%char]) ms) as (st' & -> & Hr'); [done|done| |]
  end.
  { eapply Forall_impl; [exact Hms|]. by intros m' [_ ?]. }
  simpl. by rewrite Hr'.
Qed.

(** ** A [//] inside the text *)

(** A definition whose text may hold [//]: the shape [MSG_PATTERN] reads,
    fields of plain characters without double quote, no [/*]. *)
Definition quoted_ok (m : msg) : Prop :=
  groups_ok m ∧ text_ok (m_text m) ∧ line_chars (render m) ∧
  Forall (λ c, plain_char c ∧ c ≠ dq) (of_fields m) ∧ has2 "/" "*" (m_text m) = false.

Lemma quoted_ok_pre m :
  quoted_ok m → Forall (λ c, c ≠ "/"%char) (render_pre m) ∧ Forall (λ c, c ≠ dq) (render_pre m).
Proof.
  intros (Hg & _ & _ & Hf & _). split.
  - apply render_pre_no_slash_of; [done|]. eapply Forall_impl; [exact Hf|]. by intros c [[? _] _].
  - apply render_pre_no_dq; [done|]. eapply Forall_impl; [exact Hf|]. by intros c [_ ?].
Qed.

(** The rule of lines 197-200: the [//] of the text has one double quote
    before it and one after it, so the line is kept whole. *)
Lemma cut_line_comment_quoted m t1 t2 :
  quoted_ok m → m_text m = t1 ++ ⟪"//"⟫ ++ t2 → has2 "/" "/" (t1 ++ ["/"%char]) = false →
  cut_line_comment (render m) = Some (render m).
Proof.
  intros Hq Hs H1. destruct (quoted_ok_pre m Hq) as [Hsl Hdq]. destruct Hq as (_ & Ht & _).
  unfold text_ok in Ht. rewrite Hs in Ht. apply Forall_app in Ht as [Ht1 Ht].
  apply Forall_app in Ht as [_ Ht2].
  assert (E : render m = (render_pre m ++ dq :: t1) ++ "/"%char :: "/"%char :: t2 ++ dq :: render_post).
  { rewrite render_split, Hs.
    repeat first [rewrite <- app_assoc | rewrite <- app_comm_cons]. reflexivity. }
  unfold cut_line_comment. change ⟪"//"⟫ with ["/"%char; "/"%char]. rewrite E, find2_app.
  2: { replace ((render_pre m ++ dq :: t1) ++ ["/"%char]) with ((render_pre m ++ [dq]) ++ t1 ++ ["/"%char])
         by (rewrite <- !app_assoc; reflexivity).
       apply has2_app_false; [|done|].
       - apply has2_nofirst, Forall_app. split; [done|]. repeat constructor. discriminate.
       - rewrite last_snoc, (bool_decide_false (Some dq = _)); [done|by intros [=]]. }
  rewrite take_app_length, drop_app_2, !count_char_app, !count_char_cons_eq.
  rewrite (count_char_none _ (render_pre m)), (count_char_none _ t1), (count_char_none _ t2),
    (count_char_none _ render_post); [done| | | |done].
  - repeat constructor; discriminate.
  - eapply Forall_impl; [exact Ht2|]. by intros c [? _].
  - eapply Forall_impl; [exact Ht1|]. by intros c [? _].
Qed.

Lemma scan_line_quoted st m t1 t2 :
  multiline_comment st = false → buff st = [] → quoted_ok m →
  m_text m = t1 ++ ⟪"//"⟫ ++ t2 → has2 "/" "/" (t1 ++ ["/"%char]) = false →
  scan_line st (render m) = Ok (ScanState (S (lineno st)) false [] (ret st ++ [strip_msg m])).
Proof.
  intros Hc Hb Hq Hs H1. pose proof Hq as (Hg & Ht & _ & _ & Ho).
  unfold scan_line. rewrite (strip_stripped _ (render_stripped m)).
  rewrite bool_decide_false by (pose proof (render_length m); lia).
  simpl. rewrite Hc. unfold scan_code.
  rewrite find_open_None by (apply render_has2_of; [discriminate|apply (quoted_ok_pre m Hq)|done]).
  rewrite (cut_line_comment_quoted m t1 t2) by done.
  rewrite bool_decide_false by (simpl; congruence).
  rewrite feed_render; [simpl; by rewrite Hc|done|done|done].
Qed.

(** C24: A definition whose text holds [//] (with fields free of double
    quotes) is read whole: the [//] has an odd number of double quotes on
    each side, and is taken as part of a string. *)
Theorem quoted_line_comment items m t1 t2 :
  Forall item_ok items → quoted_ok m →
  m_text m = t1 ++ ⟪"//"⟫ ++ t2 → has2 "/" "/" (t1 ++ ["/"%char]) = false →
  parse_msgdm (src_file items ++ unlines [render m]) =
    Ok (concat (map item_records items) ++ [strip_msg m]).
Proof.
  intros Hi Hq Hs H1. rewrite parse_msgdm_src_app; [|done|constructor; [apply Hq|constructor]].
  cbn [scan_lines]. by rewrite (scan_line_quoted _ m t1 t2).
Qed.

(** ** Deciding the shape of a source item *)

#[export] Instance src_ok_dec m : Decision (src_ok m).
Proof.
  unfold src_ok, groups_ok, field_ok, text_ok, plain_char, not_comma, not_nl. apply _.
Defined.

#[export] Instance quoted_ok_dec m : Decision (quoted_ok m).
Proof.
  unfold quoted_ok, groups_ok, field_ok, text_ok, line_chars, plain_char, not_comma, not_nl. apply _.
Defined.

#[export] Instance item_ok_dec it : Decision (item_ok it).
Proof. destruct it; unfold item_ok, line_chars, all_space; apply _. Defined.

(** ** Sample sources *)

(** A definition with blanks around its fields. *)
Definition sample_msg : msg :=
  Msg ⟪"BadCharSet"⟫ ⟪" ES_DM"⟫ ⟪" 1"⟫ ⟪" E_FAILED"⟫ ⟪" EV_USAGE"⟫ ⟪" 0 "⟫ ⟪"Invalid character set."⟫.

Definition sample_items : list src_item := [
  SBlock ⟪" msgdm.cc"⟫ [⟪" * DM errors"⟫] ⟪" "⟫;
  SBlank [];
  SPragma ⟪"include <error.h>"⟫;
  SComment ⟪" BadCharSet"⟫;
  SRecord sample_msg
].

Lemma parse_msgdm_src_file_witness :
  parse_msgdm (src_file sample_items) = Ok [strip_msg sample_msg].
Proof. apply (parse_msgdm_src_file sample_items). apply (bool_decide_unpack _). by vm_compute. Defined.

Lemma parse_msgdm_records_ok_witness : Forall record_ok [strip_msg sample_msg].
Proof. apply (parse_msgdm_records_ok (src_file sample_items)). vm_compute. reflexivity. Defined.

(** Text after the [*/] that closes a block comment. *)
Definition trailing_src : str := unlines [⟪"/*"⟫; ⟪" * text"⟫; ⟪" */ int x;"⟫].

Lemma parse_msgdm_error_line_witness :
  ∃ i l st, readlines trailing_src !! i = Some l ∧
    scan_line st l = Err (ExtraAfterClose ⟪"int x;"⟫ 3) ∧ error_line (ExtraAfterClose ⟪"int x;"⟫ 3) = S i.
Proof. apply parse_msgdm_error_line. vm_compute. reflexivity. Defined.

(** A line comment that mentions [/*] after the items of [sample_items]:
    the error names its line, the eighth. *)
Lemma line_comment_with_open_witness :
  parse_msgdm (src_file sample_items ++ unlines [⟪"//"⟫ ++ ⟪" see "⟫ ++ ⟪"/*"⟫ ++ ⟪" below"⟫]) =
    Err (ExtraBeforeOpen (S (length (concat (map item_lines sample_items))))).
Proof. apply line_comment_with_open; apply (bool_decide_unpack _); by vm_compute. Defined.

Lemma one_line_block_comment_witness :
  parse_msgdm (src_file sample_items ++ unlines ((⟪"/*"⟫ ++ ⟪" one line "⟫ ++ ⟪"*/"⟫) :: map render [sample_msg])) =
    Ok (concat (map item_records sample_items)).
Proof. apply one_line_block_comment; apply (bool_decide_unpack _); by vm_compute. Defined.

Lemma split_definition_dropped_witness :
  parse_msgdm (src_file sample_items ++ unlines (⟪"ErrorId"⟫ :: drop 8 (render sample_msg) :: map render [sample_msg])) =
    Ok (concat (map item_records sample_items)).
Proof. apply split_definition_dropped; apply (bool_decide_unpack _); by vm_compute. Defined.

(** A text with a URL. *)
Definition url_msg : msg := Msg ⟪"Url"⟫ ⟪"ES_DM"⟫ ⟪"2"⟫ ⟪"E_INFO"⟫ ⟪"EV_NONE"⟫ ⟪"0"⟫ ⟪"see http://perforce.com"⟫.

Lemma quoted_line_comment_witness :
  parse_msgdm (src_file sample_items ++ unlines [render url_msg]) =
    Ok (concat (map item_records sample_items) ++ [strip_msg url_msg]).
Proof.
  apply (quoted_line_comment _ _ ⟪"see http:"⟫ ⟪"perforce.com"⟫);
    [apply (bool_decide_unpack _); by vm_compute|apply (bool_decide_unpack _); by vm_compute
    |reflexivity|reflexivity].
Defined.

End Scanner.
