(* ===== verification/JavaId.v ===== *)
(** * [to_java_id] (lines 99-119): the Java name of a message

    [walk] is the [for c in name] loop with its two accumulators [ret]
    and [last_upper]; [to_java_id] adds the two special cases of lines
    104-108.  [segments] is the same translation without accumulator,
    used as the reference the loop is proved equal to. *)

From S2P Require Import Prelude PyStr.

Module JavaId.
Import PyStr.

Definition underscore : ascii := "_"%char.

(** Lines 110-118. *)
Fixpoint walk (ret : str) (last_upper : bool) (name : str) : str :=
  match name with
  | [] => ret
  | c :: name' =>
      if last_upper then walk (ret ++ [upper_char c]) false name'
      else if isupper c || isdigit c then
        walk ((if bool_decide (0 < length ret) then ret ++ [underscore] else ret)
                ++ [upper_char c]) true name'
      else walk (ret ++ [upper_char c]) false name'
  end.

(** Lines 99-119. *)
Definition to_java_id (name : str) : str :=
  if startswith ⟪"Ex"⟫ name then ⟪"EX_"⟫ ++ drop 2 name
  else if startswith ⟪"Diff2"⟫ name then walk ⟪"DIFF2"⟫ false (drop 5 name)
  else walk [] false name.

(** The loop without accumulator: [first] says no character has been
    written yet. *)
Fixpoint segments (first last_upper : bool) (name : str) : str :=
  match name with
  | [] => []
  | c :: name' =>
      if last_upper then upper_char c :: segments false false name'
      else if isupper c || isdigit c then
        (if first then [] else [underscore]) ++ upper_char c :: segments false true name'
      else upper_char c :: segments false false name'
  end.

(** ** The loop and its reference *)

(** The accumulator loop writes [ret] followed by the reference
    translation of the rest. *)
Lemma walk_segments ret lu name :
  walk ret lu name = ret ++ segments (bool_decide (ret = [])) lu name.
Proof.
  revert ret lu; induction name as [|c name IH]; intros ret lu; simpl.
  - by rewrite app_nil_r.
  - destruct lu; [|destruct (isupper c || isdigit c)]; rewrite IH;
      destruct ret as [|d ret]; simpl; repeat case_bool_decide; simplify_eq/=;
      try lia; by rewrite <- ?app_assoc.
Qed.

(** ** Character facts *)

Lemma upper_char_not_underscore c : c ≠ underscore → upper_char c ≠ underscore.
Proof. destruct c as [[] [] [] [] [] [] [] []]; vm_compute; congruence. Qed.

Definition no_prefix (name : str) : Prop :=
  startswith ⟪"Ex"⟫ name = false ∧ startswith ⟪"Diff2"⟫ name = false.

(** ** Lemmas on [segments] *)

Lemma segments_length_lower first lu s : length s ≤ length (segments first lu s).
Proof.
  revert first lu; induction s as [|c s IH]; intros first lu; simpl; [lia|].
  destruct lu; [|destruct (isupper c || isdigit c); [destruct first|]]; simpl;
    specialize (IH false); [specialize (IH false)|specialize (IH true)..|specialize (IH false)]; lia.
Qed.

Lemma segments_length_upper lu s :
  2 * length (segments false lu s) ≤ 3 * length s + (if lu then 0 else 1).
Proof.
  revert lu; induction s as [|c s IH]; intros lu; simpl; [destruct lu; lia|].
  destruct lu; [|destruct (isupper c || isdigit c)]; simpl;
    [specialize (IH false)|specialize (IH true)|specialize (IH false)]; simpl in IH; lia.
Qed.

Lemma segments_letters first lu s :
  filter (λ c, c ≠ underscore) (segments first lu s) = filter (λ c, c ≠ underscore) (upper s).
Proof.
  revert first lu; induction s as [|c s IH]; intros first lu; simpl; [done|].
  assert (Hu : upper_char c = underscore ↔ c = underscore).
  { split; [|intros ->; done]. intros H.
    destruct (decide (c = underscore)) as [|Hc]; [done|].
    by apply upper_char_not_underscore in Hc. }
  destruct lu; [|destruct (isupper c || isdigit c); [destruct first|]]; simpl;
    rewrite ?filter_cons; repeat case_decide; try tauto; by rewrite IH.
Qed.

Lemma isupper_upper_char c : isupper c = true → upper_char c = c ∧ c ≠ underscore.
Proof. destruct c as [[] [] [] [] [] [] [] []]; vm_compute; intros; try discriminate; split; congruence. Qed.

Lemma segments_acronym lu w :
  Forall (λ c, isupper c = true) w →
  count_char underscore (segments false lu w) =
    if lu then length w / 2 else (length w + 1) / 2.
Proof.
  revert lu; induction w as [|c w IH]; intros lu Hw; [by destruct lu|].
  inversion Hw as [|? ? Hc Hw']; subst.
  destruct (isupper_upper_char c Hc) as [Hu Hn]. cbn [segments length]. destruct lu.
  - rewrite Hu, count_char_cons_ne, IH by done. by rewrite Nat.add_1_r.
  - rewrite Hc. cbn [orb app]. rewrite count_char_cons_eq, Hu, count_char_cons_ne, IH by done.
    replace (S (length w) + 1) with (length w + 1 * 2) by lia.
    rewrite Nat.div_add by lia. lia.
Qed.

Lemma upper_no_prefix w : Forall (λ c, isupper c = true) w → no_prefix w.
Proof.
  intros Hw. unfold no_prefix.
  destruct w as [|c [|d w]]; simpl; [done|by rewrite ?andb_false_r|].
  inversion Hw as [|? ? _ Hw']; inversion Hw'; subst.
  split; (rewrite (bool_decide_false (_ = d)); [simpl; by rewrite andb_false_r|]);
    intros <-; discriminate.
Qed.

Lemma segments_head first c s :
  ∃ r, segments first false (c :: s) = upper_char c :: r ∨
       (first = false ∧ segments first false (c :: s) = underscore :: upper_char c :: r).
Proof.
  simpl. destruct (isupper c || isdigit c); [destruct first|]; simpl; eauto.
Qed.

(** ** Theorems *)

(** C25: Names starting with [Ex] keep the rest of the name as it is. *)
Theorem to_java_id_Ex r : to_java_id (⟪"Ex"⟫ ++ r) = ⟪"EX_"⟫ ++ r.
Proof.
  unfold to_java_id. rewrite startswith_app. f_equal.
Qed.

(** C26: Names starting with [Diff2] become [DIFF2] followed by the
    translation of the rest, which starts with a separator when the rest
    starts with an upper-case letter or a digit. *)
Theorem to_java_id_Diff2 r :
  to_java_id (⟪"Diff2"⟫ ++ r) = ⟪"DIFF2"⟫ ++ segments false false r.
Proof.
  unfold to_java_id. rewrite startswith_app.
  change (startswith ⟪"Ex"⟫ (⟪"Diff2"⟫ ++ r)) with false. cbn iota.
  by rewrite (drop_app_length' ⟪"Diff2"⟫ r 5 eq_refl), walk_segments.
Qed.

Lemma upper_char_idem c : upper_char (upper_char c) = upper_char c.
Proof. destruct c as [[] [] [] [] [] [] [] []]; by vm_compute. Qed.

Lemma to_java_id_plain name : no_prefix name → to_java_id name = segments true false name.
Proof. intros [H1 H2]. unfold to_java_id. by rewrite H1, H2, walk_segments. Qed.

(** C28: Outside the two special cases the name grows by the separators only,
    and by at most one separator for two characters, on ASCII names. *)
Theorem to_java_id_length name :
  is_ascii name → no_prefix name →
  length name ≤ length (to_java_id name) ∧ 2 * length (to_java_id name) ≤ 3 * length name.
Proof.
  intros _ H. rewrite to_java_id_plain by done. split; [apply segments_length_lower|].
  destruct name as [|c s]; [done|]. simpl.
  pose proof (segments_length_upper false s) as H1.
  pose proof (segments_length_upper true s) as H2. simpl in *.
  destruct (isupper c || isdigit c); simpl; lia.
Qed.

(** C27: Outside the two special cases the translation only upper-cases the
    name and inserts underscores. *)
Theorem to_java_id_letters name :
  no_prefix name →
  filter (λ c, c ≠ underscore) (to_java_id name) = filter (λ c, c ≠ underscore) (upper name).
Proof. intros H. rewrite to_java_id_plain by done. apply segments_letters. Qed.

(** C7: A run of [n] upper-case letters gets [(n - 1) / 2] separators: the
    loop skips the character after each upper-case letter, so an acronym
    is cut every second letter. *)
Theorem to_java_id_acronym w :
  w ≠ [] → Forall (λ c, isupper c = true) w →
  count_char underscore (to_java_id w) = (length w - 1) / 2.
Proof.
  intros Hne Hw. rewrite to_java_id_plain by (by apply upper_no_prefix).
  destruct w as [|c w]; [done|]. inversion Hw as [|? ? Hc Hw']; subst.
  destruct (isupper_upper_char c Hc) as [Hu Hn].
  cbn [segments]. rewrite Hc. cbn [orb app].
  rewrite Hu, count_char_cons_ne, segments_acronym by done. simpl. by rewrite Nat.sub_0_r.
Qed.

(** C23: The case of the character after an upper-case letter or a digit
    at the start of a name is lost: the two names give the same constant,
    so [ABc] and [Abc] both declare [ABC]. *)
Theorem to_java_id_collision x c r :
  isupper x || isdigit x = true →
  no_prefix (x :: c :: r) → no_prefix (x :: upper_char c :: r) →
  to_java_id (x :: c :: r) = to_java_id (x :: upper_char c :: r).
Proof.
  intros Hx H1 H2. rewrite !to_java_id_plain by done. cbn [segments].
  by rewrite Hx, upper_char_idem.
Qed.

(** ** Examples *)

Lemma to_java_id_length_witness :
  length ⟪"NoSuchFile2"⟫ ≤ length (to_java_id ⟪"NoSuchFile2"⟫) ∧
  2 * length (to_java_id ⟪"NoSuchFile2"⟫) ≤ 3 * length ⟪"NoSuchFile2"⟫.
Proof.
  apply to_java_id_length; [apply (bool_decide_unpack _); by vm_compute|split; reflexivity].
Defined.

Lemma to_java_id_letters_witness :
  filter (λ c, c ≠ underscore) (to_java_id ⟪"NoSuchFile2"⟫) =
  filter (λ c, c ≠ underscore) (upper ⟪"NoSuchFile2"⟫).
Proof. apply to_java_id_letters. split; reflexivity. Defined.

(** [ABCD] becomes [AB_CD]: one separator for four capitals. *)
Lemma to_java_id_collision_witness :
  to_java_id ⟪"Abc"⟫ = to_java_id (["A"%char; upper_char "b"%char] ++ ⟪"c"⟫).
Proof. apply to_java_id_collision; [reflexivity|split; reflexivity|split; reflexivity]. Defined.

Lemma to_java_id_acronym_witness : count_char underscore (to_java_id ⟪"ABCD"⟫) = (4 - 1) / 2.
Proof. apply (to_java_id_acronym ⟪"ABCD"⟫); [discriminate|repeat constructor]. Defined.


End JavaId.
