(* ===== verification/Sorter.v ===== *)
(** * The sort of line 125 and the key parser [int()]

    [msg_lines.sort(key=lambda x: int(x[2].strip()))] sorts in place with
    CPython's [list.sort], whose documented contract is a stable sort by
    the key; the key function runs on every element before any
    comparison, and a key that raises aborts the sort.  The contract is
    the class [StableSort]; [isort] (insertion sort) is an instance, and
    [stable_sort_unique] shows that the contract determines the result,
    so every instance, timsort included, sorts as [isort] does.
    [py_int] is [int()] on a [str] of ASCII characters. *)

From S2P Require Import Prelude PyStr.
From Stdlib Require Import ZArith Sorting.Sorted.

Module Sorter.
Import PyStr.
Local Open Scope Z_scope.

(** ** The contract of a stable sort by an integer key *)

Definition key_sorted {A} (key : A → Z) (l : list A) : Prop :=
  Sorted (λ x y, key x ≤ key y) l.

(** The elements of one key keep their relative order. *)
Definition same_classes {A} (key : A → Z) (l1 l2 : list A) : Prop :=
  ∀ k, filter (λ x, key x = k) l1 = filter (λ x, key x = k) l2.

Class StableSort := {
  ssort {A} : (A → Z) → list A → list A;
  ssort_sorted {A} (key : A → Z) l : key_sorted key (ssort key l);
  ssort_stable {A} (key : A → Z) l : same_classes key (ssort key l) l
}.

(** ** Insertion sort *)

(** [x] goes before the first element whose key is not smaller: the
    elements of [l] come after [x] in the input, so equal keys keep
    their order. *)
Fixpoint insert_by {A} (key : A → Z) (x : A) (l : list A) : list A :=
  match l with
  | [] => [x]
  | y :: l' => if bool_decide (key x ≤ key y) then x :: y :: l' else y :: insert_by key x l'
  end.

Fixpoint isort {A} (key : A → Z) (l : list A) : list A :=
  match l with
  | [] => []
  | x :: l' => insert_by key x (isort key l')
  end.

(** ** [int()] *)

Definition digit_value (c : ascii) : Z := Z.of_nat (nat_of_ascii c) - 48.

(** Decimal digits with single underscores between them; [after_digit]
    says the previous character was a digit. *)
Fixpoint py_digits (acc : Z) (after_digit : bool) (s : str) : option Z :=
  match s with
  | [] => if after_digit then Some acc else None
  | c :: s' =>
      if bool_decide (c = "_"%char) then
        if after_digit then py_digits acc false s' else None
      else if isdigit c then py_digits (10 * acc + digit_value c) true s'
      else None
  end.

(** [int(s)] for base 10: surrounding whitespace, an optional sign, the
    digits.  [None] is the [ValueError]. *)
Definition py_int (s : str) : option Z :=
  match strip s with
  | c :: r =>
      if bool_decide (c = "-"%char) then Z.opp <$> py_digits 0 false r
      else if bool_decide (c = "+"%char) then py_digits 0 false r
      else py_digits 0 false (c :: r)
  | [] => None
  end.

(** [l.sort(key=f)]: all keys first, in order, then a stable sort by
    them; a failing key aborts the sort. *)
Definition sort_by_key `{StableSort} {A} (f : A → option Z) (l : list A) : option (list A) :=
  keyed ← mapM (λ x, k ← f x; Some (k, x)) l;
  Some (snd <$> ssort fst keyed).

(** ** Insertion sort meets the contract *)

Section Insertion.
Context {A : Type} (key : A → Z).

Lemma insert_by_sorted x l : key_sorted key l → key_sorted key (insert_by key x l).
Proof.
  unfold key_sorted. induction 1 as [|y l Hl IH Hhd]; simpl; [repeat constructor|].
  case_bool_decide.
  - constructor; [by constructor|by constructor].
  - constructor; [done|]. destruct l as [|z l]; simpl in *.
    + constructor. lia.
    + inversion Hhd; subst. case_bool_decide; constructor; lia.
Qed.

Lemma isort_sorted l : key_sorted key (isort key l).
Proof. induction l; simpl; [constructor|by apply insert_by_sorted]. Qed.

Lemma filter_insert_by k x l :
  filter (λ y, key y = k) (insert_by key x l) = filter (λ y, key y = k) (x :: l).
Proof.
  induction l as [|y l IH]; simpl; [done|]. case_bool_decide; [done|].
  rewrite filter_cons, IH, !filter_cons. repeat case_decide; try lia; done.
Qed.

Lemma insert_by_perm x l : insert_by key x l ≡ₚ x :: l.
Proof.
  induction l as [|y l IH]; simpl; [done|]. case_bool_decide; [done|].
  rewrite IH. apply Permutation_swap.
Qed.

Lemma isort_perm l : isort key l ≡ₚ l.
Proof. induction l as [|x l IH]; simpl; [done|]. by rewrite insert_by_perm, IH. Qed.

Lemma isort_stable l : same_classes key (isort key l) l.
Proof.
  intros k. induction l as [|x l IH]; simpl; [done|].
  by rewrite filter_insert_by, !filter_cons, IH.
Qed.

End Insertion.

#[export] Instance isort_StableSort : StableSort := {|
  ssort := @isort;
  ssort_sorted := @isort_sorted;
  ssort_stable := @isort_stable
|}.

(** ** The contract determines the result *)

Section Unique.
Context {A : Type} (key : A → Z).

Lemma key_sorted_head x l z : key_sorted key (x :: l) → z ∈ x :: l → key x ≤ key z.
Proof.
  intros H Hz. apply Sorted_StronglySorted in H; [|intros a b c; lia].
  inversion H as [|? ? _ Hall]; subst. apply elem_of_cons in Hz as [->|Hz]; [lia|].
  rewrite Forall_forall in Hall. by apply Hall.
Qed.

Lemma same_classes_elem l1 l2 y : same_classes key l1 l2 → y ∈ l2 → y ∈ l1.
Proof.
  intros H Hy. assert (y ∈ filter (λ x, key x = key y) l2) as Hf by (by apply list_elem_of_filter).
  rewrite <- H in Hf. by apply list_elem_of_filter in Hf as [_ ?].
Qed.

Lemma same_classes_sym l1 l2 : same_classes key l1 l2 → same_classes key l2 l1.
Proof. intros H k. by rewrite H. Qed.

Lemma same_classes_cons x l1 y l2 :
  key x = key y → same_classes key (x :: l1) (y :: l2) → x = y ∧ same_classes key l1 l2.
Proof.
  intros Hxy H. pose proof (H (key x)) as Hx. rewrite !filter_cons in Hx.
  rewrite !decide_True in Hx by done. injection Hx as -> Hx. split; [done|].
  intros k. specialize (H k). rewrite !filter_cons in H.
  destruct (decide (key y = k)); [|done]. by injection H.
Qed.

(** Two lists sorted by the key, with the same elements of every key in
    the same order, are equal. *)
Theorem stable_sort_unique l1 l2 :
  key_sorted key l1 → key_sorted key l2 → same_classes key l1 l2 → l1 = l2.
Proof.
  revert l2; induction l1 as [|x l1 IH]; intros l2 H1 H2 H.
  - destruct l2 as [|y l2]; [done|].
    by apply (same_classes_elem _ _ y) in H; [apply elem_of_nil in H|left].
  - destruct l2 as [|y l2].
    + apply same_classes_sym, (same_classes_elem _ _ x) in H; [by apply elem_of_nil in H|left].
    + assert (key x ≤ key y).
      { apply (key_sorted_head x l1); [done|]. apply (same_classes_elem _ (y :: l2)); [done|left]. }
      assert (key y ≤ key x).
      { apply (key_sorted_head y l2); [done|].
        apply (same_classes_elem _ (x :: l1)); [by apply same_classes_sym|left]. }
      destruct (same_classes_cons x l1 y l2) as [<- Hl]; [lia|done|].
      f_equal. apply IH; [by inversion H1|by inversion H2|done].
Qed.

End Unique.

(** Every stable sort sorts as insertion sort does. *)
Corollary ssort_isort `{StableSort} {A} (key : A → Z) l : ssort key l = isort key l.
Proof.
  apply (stable_sort_unique key); [apply ssort_sorted|apply isort_sorted|].
  intros k. by rewrite ssort_stable, isort_stable.
Qed.

(** ** Sorting with a key function that may raise *)

Section ByKey.
Context {A : Type}.

Lemma mapM_key_Some (f : A → option Z) (g : A → Z) l :
  (∀ x, x ∈ l → f x = Some (g x)) →
  mapM (λ x, k ← f x; Some (k, x)) l = Some ((λ x, (g x, x)) <$> l).
Proof.
  induction l as [|x l IH]; intros Hf; [done|]. simpl.
  rewrite Hf by (by left). simpl. rewrite IH; [done|]. intros y Hy. apply Hf. by right.
Qed.

Lemma mapM_key_None (f : A → option Z) l :
  mapM (λ x, k ← f x; Some (k, x)) l = None ↔ ∃ x, x ∈ l ∧ f x = None.
Proof.
  induction l as [|x l IH]; simpl.
  - split; [done|]. by intros (? & ?%elem_of_nil & _).
  - destruct (f x) eqn:E; simpl.
    + destruct (mapM _ l) eqn:E2; simpl.
      * split; [done|]. intros (y & [->|Hy]%elem_of_cons & Hn); [congruence|].
        assert (Some l0 = None) by (apply IH; eauto). congruence.
      * split; [|done]. intros _. destruct (proj1 IH eq_refl) as (y & ? & ?).
        exists y. split; [by right|done].
    + split; [|done]. intros _. exists x. split; [left|done].
Qed.

Lemma insert_by_fmap (g : A → Z) x l :
  insert_by fst (g x, x) ((λ y, (g y, y)) <$> l) = (λ y, (g y, y)) <$> insert_by g x l.
Proof. induction l as [|y l IH]; simpl; [done|]. repeat case_bool_decide; simpl; try lia; [done|f_equal; apply IH]. Qed.

Lemma isort_fmap (g : A → Z) l :
  isort fst ((λ y, (g y, y)) <$> l) = (λ y, (g y, y)) <$> isort g l.
Proof. induction l as [|x l IH]; [done|]. rewrite fmap_cons; cbn [isort]. by rewrite IH, insert_by_fmap. Qed.

(** A key that raises on any element makes the sort raise. *)
Theorem sort_by_key_error `{StableSort} (f : A → option Z) l :
  sort_by_key f l = None ↔ ∃ x, x ∈ l ∧ f x = None.
Proof.
  unfold sort_by_key. rewrite <- mapM_key_None.
  destruct (mapM _ l); simpl; split; done.
Qed.

(** When every key is computed, the result is the insertion sort of the
    list by the key, whatever stable sort runs. *)
Theorem sort_by_key_isort `{StableSort} (f : A → option Z) (g : A → Z) l :
  (∀ x, x ∈ l → f x = Some (g x)) → sort_by_key f l = Some (isort g l).
Proof.
  intros Hf. unfold sort_by_key. rewrite (mapM_key_Some f g) by done. simpl.
  set (kl := (λ x, (g x, x)) <$> l).
  rewrite (stable_sort_unique fst (ssort fst kl) (isort fst kl)); [|apply ssort_sorted|apply isort_sorted|].
  2: { intros k. by rewrite ssort_stable, isort_stable. }
  subst kl. rewrite isort_fmap, <- list_fmap_compose. f_equal.
  apply list_fmap_id.
Qed.

End ByKey.

(** ** [int()] on decimal strings *)

Definition decimal_value (w : str) : Z :=
  fold_left (λ acc c, 10 * acc + digit_value c) w 0.

Lemma py_digits_decimal acc b w :
  w ≠ [] → Forall (λ c, isdigit c = true) w →
  py_digits acc b w = Some (fold_left (λ acc c, 10 * acc + digit_value c) w acc).
Proof.
  revert acc b; induction w as [|c w IH]; intros acc b Hne Hw; [done|].
  inversion Hw as [|? ? Hc Hw']; subst. simpl.
  rewrite bool_decide_false by (intros ->; discriminate). rewrite Hc.
  destruct w as [|d w]; [done|]. apply IH; [done|done].
Qed.

Lemma isdigit_nonspace c : isdigit c = true → isspace c = false.
Proof. destruct c as [[] [] [] [] [] [] [] []]; by vm_compute. Qed.

Lemma isdigit_not_sign c : isdigit c = true → c ≠ "-"%char ∧ c ≠ "+"%char.
Proof. destruct c as [[] [] [] [] [] [] [] []]; vm_compute; intros; try discriminate; split; congruence. Qed.

Lemma strip_digits ws1 w ws2 :
  all_space ws1 → all_space ws2 → w ≠ [] → Forall (λ c, isdigit c = true) w →
  strip (ws1 ++ w ++ ws2) = w.
Proof.
  intros H1 H2 Hne Hw.
  assert (Hns : Forall (λ c, isspace c = false) w).
  { eapply Forall_impl; [exact Hw|]. intros c. apply isdigit_nonspace. }
  destruct (stripped_nonspace w Hns) as [_ Hr].
  unfold strip, rstrip. rewrite lstrip_all_space_app by done.
  destruct w as [|c w']; [done|]. inversion Hns; subst.
  rewrite <- app_comm_cons, lstrip_nonspace, app_comm_cons by done.
  rewrite reverse_app, lstrip_all_space_app by (by apply Forall_reverse).
  by rewrite Hr, reverse_involutive.
Qed.

(** [int()] reads a string of decimal digits with whitespace around it as
    its decimal value. *)
Lemma py_int_decimal ws1 w ws2 :
  all_space ws1 → all_space ws2 → w ≠ [] → Forall (λ c, isdigit c = true) w →
  py_int (ws1 ++ w ++ ws2) = Some (decimal_value w).
Proof.
  intros H1 H2 Hne Hw. unfold py_int. rewrite strip_digits by done.
  destruct w as [|c w']; [done|]. inversion Hw as [|? ? Hc Hw']; subst.
  destruct (isdigit_not_sign c Hc).
  rewrite !bool_decide_false by done. by rewrite py_digits_decimal.
Qed.

(** [int()] of a string of decimal digits. *)
Lemma py_int_digits w :
  w ≠ [] → Forall (λ c, isdigit c = true) w → py_int w = Some (decimal_value w).
Proof.
  intros Hne Hw. pose proof (py_int_decimal [] w [] ltac:(constructor) ltac:(constructor) Hne Hw) as H.
  by rewrite app_nil_r in H.
Qed.

(** ** Examples *)

(** The order insertion sort gives: by code, equal codes in input order. *)
Example isort_codes :
  isort (λ s, default 0 (py_int s)) [⟪"2"⟫; ⟪" 1"⟫; ⟪"2 "⟫] = [⟪" 1"⟫; ⟪"2"⟫; ⟪"2 "⟫].
Proof. reflexivity. Qed.

End Sorter.
