(* ===== verification/JavaInt.v ===== *)
(** * The value javac gives the constant of [output_line]

    [output_line] copies the stripped code field into the Java source as
    [int <ID> = <code>;].  The value of that initializer is fixed by the
    Java language (JLS 3.10.1, 15.15.4), not by [int()]: a leading [0]
    makes an octal literal, a decimal literal above [2^31 - 1] (or
    [2^31] without a minus sign) is rejected, an octal one may run up to
    [2^32 - 1] and stands for the two's complement [int], and unary
    minus wraps at 32 bits.  [java_int_value] is that value for the
    shapes a code field takes, an optional [-] followed by digits;
    [None] is a literal javac rejects. *)

From S2P Require Import Prelude PyStr Sorter.
From Stdlib Require Import ZArith.

Module JavaInt.
Import PyStr Sorter.
Local Open Scope Z_scope.

(** ** Literals *)

Definition isoctal (c : ascii) : bool := isdigit c && bool_decide (digit_value c < 8).

(** The digits of [w] read in base [b]. *)
Definition radix_value (b : Z) (w : str) : Z := fold_left (λ acc c, b * acc + digit_value c) w 0.

(** The [int] a 32-bit pattern in [[0, 2^32)] stands for. *)
Definition wrap32 (v : Z) : Z := if bool_decide (2^31 ≤ v) then v - 2^32 else v.

(** An unsigned literal; [neg] says it is the operand of a unary minus,
    the only place the decimal [2147483648] may appear. *)
Definition literal_value (neg : bool) (w : str) : option Z :=
  match w with
  | [] => None
  | c :: r =>
      if bool_decide (c = "0"%char) && bool_decide (r ≠ []) then
        if forallb isoctal r && bool_decide (radix_value 8 r < 2^32)
        then Some (wrap32 (radix_value 8 r)) else None
      else if forallb isdigit w then
        let v := radix_value 10 w in
        if bool_decide (v < 2^31) || (neg && bool_decide (v = 2^31)) then Some v else None
      else None
  end.

(** The initializer [s]: a literal, or a unary minus applied to one. *)
Definition java_int_value (s : str) : option Z :=
  match s with
  | c :: w =>
      if bool_decide (c = "-"%char) then (λ v, wrap32 (- v)) <$> literal_value true w
      else literal_value false s
  | [] => None
  end.

(** ** Lemmas *)

Lemma wrap32_range v : - 2^31 ≤ v < 2^32 → - 2^31 ≤ wrap32 v < 2^31.
Proof. unfold wrap32. case_bool_decide; lia. Qed.

Lemma forallb_isdigit w : Forall (λ c, isdigit c = true) w → forallb isdigit w = true.
Proof. induction 1; simpl; [done|]. by apply andb_true_intro. Qed.

Lemma radix_value_nonneg_step b acc w :
  0 ≤ b → 0 ≤ acc → Forall (λ c, isdigit c = true) w →
  0 ≤ fold_left (λ acc c, b * acc + digit_value c) w acc.
Proof.
  intros Hb. revert acc. induction w as [|c w IH]; intros acc Ha Hw; simpl; [done|].
  inversion Hw as [|? ? Hc Hw']; subst. apply IH; [|done].
  assert (0 ≤ digit_value c).
  { unfold digit_value. destruct c as [[] [] [] [] [] [] [] []]; discriminate || (vm_compute; discriminate). }
  nia.
Qed.

(** Every value is an [int]. *)
Lemma java_int_value_range s v : java_int_value s = Some v → - 2^31 ≤ v < 2^31.
Proof.
  assert (Hlit : ∀ neg w v, literal_value neg w = Some v →
            (0 ≤ v < 2^31 ∨ (neg = true ∧ v = 2^31)) ∨ - 2^31 ≤ v < 2^31).
  { intros neg [|c r] v'; unfold literal_value; cbv zeta; [done|].
    destruct (bool_decide (c = "0"%char) && bool_decide (r ≠ [])) eqn:E0.
    - destruct (forallb isoctal r && bool_decide (radix_value 8 r < 2^32)) eqn:E; [|done].
      intros [= <-]. right. apply andb_true_iff in E as [Ho Hb%bool_decide_eq_true].
      apply wrap32_range. split; [|done].
      enough (0 ≤ radix_value 8 r) by lia. apply radix_value_nonneg_step; [lia|lia|].
      apply Forall_forall. intros x Hx%list_elem_of_In.
      apply (proj1 (forallb_forall _ _) Ho) in Hx. by apply andb_true_iff in Hx as [? _].
    - destruct (forallb isdigit (c :: r)) eqn:Ed; [|done].
      destruct (bool_decide (radix_value 10 (c :: r) < 2^31) || (neg && bool_decide (radix_value 10 (c :: r) = 2^31))) eqn:E;
        [|done].
      intros [= <-]. left.
      assert (0 ≤ radix_value 10 (c :: r)).
      { apply radix_value_nonneg_step; [lia|lia|]. apply Forall_forall. intros x Hx%list_elem_of_In.
        by apply (proj1 (forallb_forall _ _) Ed). }
      apply orb_true_iff in E as [E%bool_decide_eq_true|[-> E%bool_decide_eq_true]%andb_true_iff]; [lia|].
      by right. }
  unfold java_int_value. destruct s as [|c w]; [done|].
  case_bool_decide as Hm.
  - destruct (literal_value true w) as [v'|] eqn:E; simpl; [|done]. intros [= <-].
    destruct (Hlit _ _ _ E) as [[?|[_ ->]]|?]; apply wrap32_range; lia.
  - intros E. destruct (Hlit _ _ _ E) as [[?|[? _]]|?]; [lia|discriminate|lia].
Qed.

(** ** The literals a code field gives *)

Lemma forallb_isoctal w : Forall (λ c, isoctal c = true) w → forallb isoctal w = true.
Proof. induction 1; simpl; [done|]. by apply andb_true_intro. Qed.

(** Digits without a leading zero: a decimal literal, rejected from [2^31]. *)
Lemma literal_value_decimal w :
  w ≠ [] → Forall (λ c, isdigit c = true) w → head w ≠ Some "0"%char ∨ w = ⟪"0"⟫ →
  literal_value false w = if bool_decide (radix_value 10 w < 2^31) then Some (radix_value 10 w) else None.
Proof.
  intros Hne Hw Hz. destruct w as [|c r]; [done|]. unfold literal_value.
  assert (Hoct : bool_decide (c = "0"%char) && bool_decide (r ≠ []) = false).
  { destruct Hz as [Hz|[= -> ->]]; [|done]. rewrite bool_decide_false; [done|]. by intros ->. }
  rewrite Hoct, forallb_isdigit by done. cbv zeta. by rewrite orb_false_r.
Qed.

Lemma java_int_value_decimal w :
  w ≠ [] → Forall (λ c, isdigit c = true) w → head w ≠ Some "0"%char ∨ w = ⟪"0"⟫ →
  java_int_value w = if bool_decide (radix_value 10 w < 2^31) then Some (radix_value 10 w) else None.
Proof.
  intros Hne Hw Hz. rewrite <- literal_value_decimal by done.
  destruct w as [|c r]; [done|]. inversion Hw as [|? ? Hc _]; subst.
  destruct (isdigit_not_sign c Hc) as [Hm _]. unfold java_int_value. by rewrite bool_decide_false.
Qed.

(** A [0] followed by octal digits: an octal literal, a 32-bit pattern. *)
Lemma java_int_value_octal ds :
  ds ≠ [] → Forall (λ c, isoctal c = true) ds → radix_value 8 ds < 2^32 →
  java_int_value ("0"%char :: ds) = Some (wrap32 (radix_value 8 ds)).
Proof.
  intros Hne Hd Hb. unfold java_int_value, literal_value.
  rewrite (bool_decide_false ("0"%char = _)) by discriminate.
  rewrite bool_decide_true, (bool_decide_true (ds ≠ [])), forallb_isoctal, bool_decide_true by done.
  done.
Qed.

End JavaInt.
