(* ===== verification/Emitter.v ===== *)
(** * The emitter (lines 23-163)

    [CONSTANT_MAPPING] as an association list with the dictionary's
    lookup, the [header] and [footer] templates, [output_line] (one
    Javadoc comment and one [int] constant per record, with the fields
    stripped, the three code fields mapped and their dots turned into
    [#]), and [output_msg_lines] (the sort of line 125 followed by the
    lines).  Every [out.write] adds its text to the end of the file, so
    an operation is the text it adds; [None] is the [ValueError] that
    [int()] raises in the key of the sort. *)

From S2P Require Import Prelude PyStr MsgPattern Scanner JavaId Sorter JavaInt.
From Stdlib Require Import ZArith.

Module Emitter.
Import PyStr MsgPattern Scanner JavaId Sorter JavaInt.

(** ** The constant table *)

(** Lines 23-60. *)
Definition CONSTANT_MAPPING : list (str * str) := [
  (⟪"ES_OS"⟫, ⟪"MessageSubsystemCode.ES_OS"⟫);
  (⟪"ES_SUPP"⟫, ⟪"MessageSubsystemCode.ES_SUPP"⟫);
  (⟪"ES_LBR"⟫, ⟪"MessageSubsystemCode.ES_LBR"⟫);
  (⟪"ES_RPC"⟫, ⟪"MessageSubsystemCode.ES_RPC"⟫);
  (⟪"ES_DB"⟫, ⟪"MessageSubsystemCode.ES_DB"⟫);
  (⟪"ES_DBSUPP"⟫, ⟪"MessageSubsystemCode.ES_DBSUPP"⟫);
  (⟪"ES_DM"⟫, ⟪"MessageSubsystemCode.ES_DM"⟫);
  (⟪"ES_SERVER"⟫, ⟪"MessageSubsystemCode.ES_SERVER"⟫);
  (⟪"ES_CLIENT"⟫, ⟪"MessageSubsystemCode.ES_CLIENT"⟫);
  (⟪"ES_INFO"⟫, ⟪"MessageSubsystemCode.ES_INFO"⟫);
  (⟪"ES_HELP"⟫, ⟪"MessageSubsystemCode.ES_HELP"⟫);
  (⟪"ES_SPEC"⟫, ⟪"MessageSubsystemCode.ES_SPEC"⟫);
  (⟪"ES_FTPD"⟫, ⟪"MessageSubsystemCode.ES_FTPD"⟫);
  (⟪"ES_BROKER"⟫, ⟪"MessageSubsystemCode.ES_BROKER"⟫);

  (⟪"EV_NONE"⟫, ⟪"MessageGenericCode.EV_NONE"⟫);
  (⟪"EV_USAGE"⟫, ⟪"MessageGenericCode.EV_USAGE"⟫);
  (⟪"EV_UNKNOWN"⟫, ⟪"MessageGenericCode.EV_UNKNOWN"⟫);
  (⟪"EV_CONTEXT"⟫, ⟪"MessageGenericCode.EV_CONTEXT"⟫);
  (⟪"EV_ILLEGAL"⟫, ⟪"MessageGenericCode.EV_ILLEGAL"⟫);
  (⟪"EV_NOTYET"⟫, ⟪"MessageGenericCode.EV_NOTYET"⟫);
  (⟪"EV_PROTECT"⟫, ⟪"MessageGenericCode.EV_PROTECT"⟫);
  (⟪"EV_EMPTY"⟫, ⟪"MessageGenericCode.EV_EMPTY"⟫);
  (⟪"EV_FAULT"⟫, ⟪"MessageGenericCode.EV_FAULT"⟫);
  (⟪"EV_CLIENT"⟫, ⟪"MessageGenericCode.EV_CLIENT"⟫);
  (⟪"EV_ADMIN"⟫, ⟪"MessageGenericCode.EV_ADMIN"⟫);
  (⟪"EV_CONFIG"⟫, ⟪"MessageGenericCode.EV_CONFIG"⟫);
  (⟪"EV_UPGRADE"⟫, ⟪"MessageGenericCode.EV_UPGRADE"⟫);
  (⟪"EV_COMM"⟫, ⟪"MessageGenericCode.EV_COMM"⟫);
  (⟪"EV_TOOBIG"⟫, ⟪"MessageGenericCode.EV_TOOBIG"⟫);

  (⟪"E_EMPTY"⟫, ⟪"MessageSeverityCode.E_EMPTY"⟫);
  (⟪"E_INFO"⟫, ⟪"MessageSeverityCode.E_INFO"⟫);
  (⟪"E_WARN"⟫, ⟪"MessageSeverityCode.E_WARN"⟫);
  (⟪"E_FAILED"⟫, ⟪"MessageSeverityCode.E_FAILED"⟫);
  (⟪"E_FATAL"⟫, ⟪"MessageSeverityCode.E_FATAL"⟫)
].

(** [d.get(k)] on a dictionary given by its items. *)
Fixpoint dict_get (k : str) (d : list (str * str)) : option str :=
  match d with
  | [] => None
  | (k', v) :: d' => if bool_decide (k = k') then Some v else dict_get k d'
  end.

(** [if c in CONSTANT_MAPPING: c = CONSTANT_MAPPING[c]]
    (lines 133-134, 137-138, 140-141). *)
Definition map_const (c : str) : str :=
  match dict_get c CONSTANT_MAPPING with Some v => v | None => c end.

(** [c.replace('.', '#')] (lines 156, 158, 159). *)
Definition link (c : str) : str := replace_char "."%char "#"%char c.

(** ** Templates *)

(** Lines 63-91; [src] is [args[0]]. *)
Definition header (src : str) : str :=
  unlines [
    ⟪"/*"⟫;
    ⟪" * Licensed under the Apache License, Version 2.0 (the "⟫ ++ dq :: ⟪"License"⟫ ++ dq :: ⟪");"⟫;
    ⟪" * you may not use this file except in compliance with the License."⟫;
    ⟪" * You may obtain a copy of the License at"⟫;
    ⟪" *"⟫;
    ⟪" * http://www.apache.org/licenses/LICENSE-2.0"⟫;
    ⟪" *"⟫;
    ⟪" * Unless required by applicable law or agreed to in writing, software"⟫;
    ⟪" * distributed under the License is distributed on an "⟫ ++ dq :: ⟪"AS IS"⟫ ++ dq :: ⟪" BASIS,"⟫;
    ⟪" * WITHOUT WARRANTIES OR CONDITIONS OF ANY KIND, either express or implied."⟫;
    ⟪" * See the License for the specific language governing permissions and"⟫;
    ⟪" * limitations under the License."⟫;
    ⟪" */"⟫;
    [];
    ⟪"package com.perforce.p4java.server;"⟫;
    [];
    ⟪"import com.perforce.p4java.exception.MessageGenericCode;"⟫;
    ⟪"import com.perforce.p4java.exception.MessageSubsystemCode;"⟫;
    ⟪"import com.perforce.p4java.exception.MessageSeverityCode;"⟫;
    [];
    ⟪"/**"⟫;
    ⟪" * Error messages loaded from the Perforce C client source."⟫;
    ⟪" * <p>"⟫;
    ⟪" * p4ic4idea: DO NOT EDIT."⟫;
    ⟪" * This file is generated from the script "⟫ ++ basename src;
    ⟪" */"⟫;
    ⟪"public interface IServerMessageCode {"⟫
  ].

(** Lines 94-96. *)
Definition footer : str := ⟪"}"⟫ ++ [nl].

(** The last line of the Javadoc comment and the constant. *)
Definition decl_tail (id code : str) : str :=
  ⟪"     */"⟫ ++ [nl] ++ ⟪"    int "⟫ ++ id ++ ⟪" = "⟫ ++ code ++ ⟪";"⟫ ++ [nl].

(** Lines 130-163, the record given as the seven fields of [*msg]. *)
Definition output_line (m : msg) : str :=
  let name := strip (m_name m) in
  let sub_code := map_const (strip (m_sub m)) in
  let msg_code := strip (m_code m) in
  let severity_code := map_const (strip (m_sev m)) in
  let generic_code := map_const (strip (m_gen m)) in
  let arg_count := strip (m_args m) in
  nl :: unlines [
    ⟪"    /**"⟫;
    ⟪"     * "⟫ ++ name;
    ⟪"     * Severity {@link "⟫ ++ link severity_code ++ ⟪"}"⟫;
    ⟪"     * Subsystem code {@link "⟫ ++ link sub_code ++ ⟪"}"⟫;
    ⟪"     * Generic code {@link "⟫ ++ link generic_code ++ ⟪"},"⟫;
    ⟪"     * argument count "⟫ ++ arg_count ++ ⟪","⟫;
    ⟪"     * Text: "⟫ ++ dq :: m_text m ++ [dq]
  ] ++ decl_tail (to_java_id name) msg_code.

(** The key of line 125: [int(x[2].strip())]. *)
Definition code_key (m : msg) : option Z := py_int (strip (m_code m)).

(** Lines 122-127: sort, then one [output_line] per record.  The sort
    runs before the first write, so a failing key writes nothing. *)
Definition output_msg_lines `{StableSort} (msg_lines : list msg) : option str :=
  sorted ← sort_by_key code_key msg_lines;
  Some (concat (output_line <$> sorted)).

(** ** The table *)

Lemma dict_get_Some k d v : dict_get k d = Some v → (k, v) ∈ d.
Proof.
  induction d as [|[k' v'] d IH]; simpl; [done|].
  case_bool_decide; [intros [= <-]; subst; left|intros; right; auto].
Qed.

Lemma dict_get_None k d : dict_get k d = None ↔ k ∉ d.*1.
Proof.
  induction d as [|[k' v'] d IH]; simpl; [split; [intros _; apply not_elem_of_nil|done]|].
  rewrite not_elem_of_cons. case_bool_decide; subst; [naive_solver|]. rewrite IH. naive_solver.
Qed.

(** The class a key of the table belongs to, by its prefix. *)
Definition java_class (k : str) : str :=
  if startswith ⟪"ES_"⟫ k then ⟪"MessageSubsystemCode"⟫
  else if startswith ⟪"EV_"⟫ k then ⟪"MessageGenericCode"⟫
  else ⟪"MessageSeverityCode"⟫.

Lemma CONSTANT_MAPPING_values :
  Forall (λ kv, kv.2 = java_class kv.1 ++ "."%char :: kv.1 ∧ has2 "*" "/" (link kv.2) = false)
    CONSTANT_MAPPING.
Proof. apply (bool_decide_unpack _). by vm_compute. Qed.

Lemma CONSTANT_MAPPING_keys : NoDup CONSTANT_MAPPING.*1.
Proof. apply (bool_decide_unpack _). by vm_compute. Qed.

Lemma has2_link s : has2 "*" "/" s = false → has2 "*" "/" (link s) = false.
Proof.
  intros H. unfold link, replace_char. rewrite has2_map; [done| |]; intros c;
    case_bool_decide; subst; [split; discriminate|done|split; discriminate|done].
Qed.

Lemma has2_link_map_const s : has2 "*" "/" s = false → has2 "*" "/" (link (map_const s)) = false.
Proof.
  intros H. unfold map_const. destruct (dict_get s CONSTANT_MAPPING) as [v|] eqn:E; [|by apply has2_link].
  apply dict_get_Some in E. pose proof CONSTANT_MAPPING_values as HV.
  rewrite Forall_forall in HV. by destruct (HV _ E).
Qed.

(** C29: The three code fields: a key of the table becomes the qualified name
    of its class, any other value is kept. *)
Theorem map_const_spec c :
  (c ∈ (CONSTANT_MAPPING.*1) ∧ map_const c = java_class c ++ "."%char :: c) ∨
  (c ∉ (CONSTANT_MAPPING.*1) ∧ map_const c = c).
Proof.
  unfold map_const. destruct (dict_get c CONSTANT_MAPPING) as [v|] eqn:E.
  - left. apply dict_get_Some in E. split; [by apply (list_elem_of_fmap_2 fst) in E|].
    pose proof CONSTANT_MAPPING_values as HV. rewrite Forall_forall in HV. by destruct (HV _ E).
  - right. by apply dict_get_None in E.
Qed.

(** ** The Javadoc comment of a record *)

(** No field holds the [*/] that ends a comment. *)
Definition comment_safe (m : msg) : Prop :=
  Forall (λ s, has2 "*" "/" s = false) [m_name m; m_sub m; m_sev m; m_gen m; m_args m; m_text m].

Lemma output_line_split U R :
  nl :: U ++ ⟪"     */"⟫ ++ R = (nl :: U ++ ⟪"     "⟫) ++ "*"%char :: "/"%char :: R.
Proof. simpl. by rewrite <- app_assoc. Qed.

(** At the junction of two pieces: the first does not end with [x] or
    the second does not start with [y], whichever is a constant. *)
Local Ltac no_close_at :=
  let Hc := fresh in
  first [ apply andb_false_intro2, bool_decide_eq_false_2; intros Hc; simpl in Hc; discriminate Hc
        | apply andb_false_intro1, bool_decide_eq_false_2; intros Hc; simpl in Hc; discriminate Hc ].

Local Ltac no_close :=
  lazymatch goal with
  | |- has2 _ _ (_ ++ _) = false =>
      apply has2_app_false; [no_close|no_close|no_close_at]
  | |- has2 _ _ (_ :: _) = false =>
      rewrite has2_cons; apply orb_false_intro; [no_close|vm_compute; reflexivity]
  | |- has2 _ _ (strip _) = false => apply has2_strip; assumption
  | |- has2 _ _ (link _) = false => apply has2_link_map_const, has2_strip; assumption
  | |- _ => first [assumption | vm_compute; reflexivity]
  end.

(** The first [*/] of [output_line m] is the one of the template; the
    goal is the existence of its position and what follows it. *)
Local Ltac comment_end_tac :=
  lazymatch goal with
  | H : comment_safe ?m |- _ =>
      repeat (apply Forall_cons in H as [? H]); cbv beta in *; unfold output_line, decl_tail;
      rewrite output_line_split; change ⟪"*/"⟫ with ["*"%char; "/"%char];
      eexists; split; [apply find2_app|apply drop_app_2];
      unfold unlines; cbn [map concat]; no_close
  end.

(** C6: When no field holds [*/], the first [*/] of the text written for a
    record is the end of its Javadoc comment, and what follows it is the
    declaration of the constant. *)
Theorem output_line_comment_end m :
  comment_safe m →
  ∃ n, find ⟪"*/"⟫ (output_line m) = Some n ∧
       drop (n + 2) (output_line m) =
         nl :: ⟪"    int "⟫ ++ to_java_id (strip (m_name m)) ++ ⟪" = "⟫ ++ strip (m_code m) ++ ⟪";"⟫ ++ [nl].
Proof. intros H. comment_end_tac. Qed.

(** [out] declares the constant [id] with the initializer [init] right
    after the first [*/] it holds. *)
Definition declares (out id init : str) : Prop :=
  ∃ n, find ⟪"*/"⟫ out = Some n ∧
       drop (n + 2) out = nl :: ⟪"    int "⟫ ++ id ++ ⟪" = "⟫ ++ init ++ ⟪";"⟫ ++ [nl].

Lemma output_line_declares m :
  comment_safe m → declares (output_line m) (to_java_id (strip (m_name m))) (strip (m_code m)).
Proof. intros H. unfold declares. comment_end_tac. Qed.

(** The fields written before the text hold no [*/]. *)
Definition fields_safe (m : msg) : Prop :=
  Forall (λ s, has2 "*" "/" s = false) [m_name m; m_sub m; m_sev m; m_gen m; m_args m].

(** Everything [output_line] writes before the opening quote of the text,
    that quote included, is free of [*/]. *)
Lemma output_line_text_pre m :
  fields_safe m →
  ∃ P, has2 "*" "/" (P ++ [dq]) = false ∧
       output_line m = P ++ dq :: m_text m ++ dq :: nl ::
                       decl_tail (to_java_id (strip (m_name m))) (strip (m_code m)).
Proof.
  intros H. repeat (apply Forall_cons in H as [? H]). cbv beta in *.
  exists (nl :: unlines [
    ⟪"    /**"⟫;
    ⟪"     * "⟫ ++ strip (m_name m);
    ⟪"     * Severity {@link "⟫ ++ link (map_const (strip (m_sev m))) ++ ⟪"}"⟫;
    ⟪"     * Subsystem code {@link "⟫ ++ link (map_const (strip (m_sub m))) ++ ⟪"}"⟫;
    ⟪"     * Generic code {@link "⟫ ++ link (map_const (strip (m_gen m))) ++ ⟪"},"⟫;
    ⟪"     * argument count "⟫ ++ strip (m_args m) ++ ⟪","⟫] ++ ⟪"     * Text: "⟫).
  unfold output_line, unlines. cbn [map concat]. split; [no_close|].
  repeat first [rewrite <- app_assoc | rewrite <- app_comm_cons | rewrite app_nil_l]. reflexivity.
Qed.

(** ** The sorted output *)

Section Output.
Context `{StableSort}.

(** The integer key of a record, [0] where [int()] raises. *)
Definition code_of (m : msg) : Z := default 0%Z (code_key m).

Lemma code_key_total (msgs : list msg) :
  (∀ m, m ∈ msgs → code_key m ≠ None) → ∀ m, m ∈ msgs → code_key m = Some (code_of m).
Proof. intros Hk m Hm. unfold code_of. destruct (code_key m) eqn:E; [done|]. by destruct (Hk m Hm). Qed.

(** C16: The sort raises [ValueError], and [output_msg_lines] returns no
    text, exactly when [int()] rejects the stripped code field of some
    record. *)
Theorem output_msg_lines_error (msgs : list msg) :
  output_msg_lines msgs = None ↔ ∃ m, m ∈ msgs ∧ py_int (strip (m_code m)) = None.
Proof.
  change (output_msg_lines msgs = None ↔ ∃ m, m ∈ msgs ∧ code_key m = None).
  unfold output_msg_lines. rewrite <- sort_by_key_error.
  destruct (sort_by_key code_key msgs); simpl; split; done.
Qed.

(** C3: What is written is one [output_line] for each record, in ascending
    order of code, records of equal code in their input order. *)
Theorem output_msg_lines_sorted msgs out :
  output_msg_lines msgs = Some out →
  ∃ sorted, out = concat (output_line <$> sorted) ∧ sorted ≡ₚ msgs ∧
    key_sorted code_of sorted ∧ same_classes code_of sorted msgs ∧
    ∀ m, m ∈ msgs → code_key m = Some (code_of m).
Proof.
  intros Hout. assert (Hk : ∀ m, m ∈ msgs → code_key m = Some (code_of m)).
  { apply code_key_total. intros m Hm Hn.
    assert (sort_by_key code_key msgs = None) as Hs by (apply sort_by_key_error; eauto).
    unfold output_msg_lines in Hout. by rewrite Hs in Hout. }
  unfold output_msg_lines in Hout. rewrite (sort_by_key_isort _ code_of _ Hk) in Hout.
  injection Hout as <-.
  exists (isort code_of msgs). split_and!; [done|apply isort_perm|apply isort_sorted|apply isort_stable|done].
Qed.

End Output.

(** C30: A code field made of decimal digits with blanks around them is
    read by the key of the sort as its decimal value. *)
Theorem code_key_decimal m ws1 w ws2 :
  m_code m = ws1 ++ w ++ ws2 → all_space ws1 → all_space ws2 →
  w ≠ [] → Forall (λ c, isdigit c = true) w →
  code_key m = Some (decimal_value w).
Proof.
  intros Hm H1 H2 Hne Hw. unfold code_key. rewrite Hm, strip_digits by done.
  by apply py_int_digits.
Qed.

(** ** The value javac gives the declared constant *)

(** C15: A code field of decimal digits without a leading zero and below
    [2^31] is declared with an initializer whose Java value is the key the
    records are sorted by. *)
Theorem output_line_java_value m w :
  comment_safe m → strip (m_code m) = w → w ≠ [] → Forall (λ c, isdigit c = true) w →
  head w ≠ Some "0"%char ∨ w = ⟪"0"⟫ → (decimal_value w < 2^31)%Z →
  ∃ s, declares (output_line m) (to_java_id (strip (m_name m))) s ∧ java_int_value s = code_key m.
Proof.
  intros Hm Hs Hne Hw Hz Hb. exists w. split; [rewrite <- Hs; by apply output_line_declares|].
  unfold code_key. rewrite Hs, py_int_digits, java_int_value_decimal by done.
  by rewrite bool_decide_true.
Qed.

(** C21: A code with a leading zero is sorted by its decimal value, but the
    constant is declared with an octal literal: [010] is sorted as [10]
    and declared as [8]. *)
Theorem code_leading_zero m ds :
  comment_safe m → strip (m_code m) = "0"%char :: ds → ds ≠ [] →
  Forall (λ c, isoctal c = true) ds → (radix_value 8 ds < 2^32)%Z →
  ∃ s, declares (output_line m) (to_java_id (strip (m_name m))) s ∧
       java_int_value s = Some (wrap32 (radix_value 8 ds)) ∧ code_key m = Some (decimal_value ds).
Proof.
  intros Hm Hs Hne Hd Hb. exists ("0"%char :: ds). split_and!.
  - rewrite <- Hs. by apply output_line_declares.
  - by apply java_int_value_octal.
  - unfold code_key. rewrite Hs, py_int_digits; [done|done|].
    constructor; [done|]. eapply Forall_impl; [exact Hd|]. by intros c [? _]%andb_true_iff.
Qed.

(** C22: A code of [2^31] or more is accepted by [int()] and sorted, but
    the constant is declared with a literal javac rejects. *)
Theorem code_too_large m w :
  comment_safe m → strip (m_code m) = w → w ≠ [] → Forall (λ c, isdigit c = true) w →
  head w ≠ Some "0"%char → (2^31 ≤ decimal_value w)%Z →
  ∃ s, declares (output_line m) (to_java_id (strip (m_name m))) s ∧
       java_int_value s = None ∧ code_key m = Some (decimal_value w).
Proof.
  intros Hm Hs Hne Hw Hz Hb. exists w. split_and!.
  - rewrite <- Hs. by apply output_line_declares.
  - rewrite java_int_value_decimal by auto. change (radix_value 10 w) with (decimal_value w).
    rewrite bool_decide_false; [done|lia].
  - unfold code_key. by rewrite Hs, py_int_digits.
Qed.

(** ** A text holding [*/] *)

(** C20: A message text holding [*/] ends the Javadoc comment inside the
    [Text:] line: the first [*/] written is the one of the text, and what
    follows it, the rest of the text, the closing quote and the comment's
    own [*/], is read by javac as code. *)
Theorem output_line_text_closes_comment m t1 t2 :
  fields_safe m → m_text m = t1 ++ ⟪"*/"⟫ ++ t2 → has2 "*" "/" (t1 ++ ["*"%char]) = false →
  ∃ n, find ⟪"*/"⟫ (output_line m) = Some n ∧
       drop (n + 2) (output_line m) =
         t2 ++ dq :: nl :: decl_tail (to_java_id (strip (m_name m))) (strip (m_code m)).
Proof.
  intros Hf Ht H1. destruct (output_line_text_pre m Hf) as (P & HP & ->). rewrite Ht.
  change ⟪"*/"⟫ with ["*"%char; "/"%char].
  replace (P ++ dq :: (t1 ++ ["*"%char; "/"%char] ++ t2) ++ dq :: nl :: decl_tail _ _)
    with ((P ++ dq :: t1) ++ "*"%char :: "/"%char :: t2 ++ dq :: nl ::
            decl_tail (to_java_id (strip (m_name m))) (strip (m_code m)))
    by (rewrite <- !app_assoc; reflexivity).
  eexists; split; [apply find2_app|apply drop_app_2].
  replace ((P ++ dq :: t1) ++ ["*"%char]) with ((P ++ [dq]) ++ t1 ++ ["*"%char])
    by (rewrite <- !app_assoc; reflexivity).
  apply has2_app_false; [done|done|]. rewrite last_snoc, (bool_decide_false (Some dq = _)); [done|].
  by intros [=].
Qed.

(** ** Examples *)

Definition sample_codes : list msg :=
  [Msg ⟪"Second"⟫ ⟪"ES_DM"⟫ ⟪" 2"⟫ ⟪"E_INFO"⟫ ⟪"EV_NONE"⟫ ⟪"0"⟫ ⟪"second"⟫; sample_msg].

Lemma output_line_comment_end_witness :
  ∃ n, find ⟪"*/"⟫ (output_line sample_msg) = Some n ∧
       drop (n + 2) (output_line sample_msg) =
         nl :: ⟪"    int "⟫ ++ to_java_id (strip (m_name sample_msg)) ++ ⟪" = "⟫ ++
           strip (m_code sample_msg) ++ ⟪";"⟫ ++ [nl].
Proof. apply output_line_comment_end. unfold comment_safe. apply (bool_decide_unpack _). by vm_compute. Defined.

Lemma code_key_decimal_witness : code_key sample_msg = Some (decimal_value ⟪"1"⟫).
Proof. apply (code_key_decimal _ ⟪" "⟫ ⟪"1"⟫ []); [reflexivity|repeat constructor|repeat constructor|discriminate|repeat constructor]. Defined.

Lemma output_line_java_value_witness :
  ∃ s, declares (output_line sample_msg) (to_java_id (strip (m_name sample_msg))) s ∧
       java_int_value s = code_key sample_msg.
Proof.
  apply (output_line_java_value sample_msg ⟪"1"⟫);
    [unfold comment_safe; apply (bool_decide_unpack _); by vm_compute
    |reflexivity|discriminate|repeat constructor|left; discriminate|vm_compute; reflexivity].
Defined.

(** [010] is declared as [8] and sorted as [10]. *)
Definition octal_msg : msg := Msg ⟪"Oct"⟫ ⟪"ES_DM"⟫ ⟪" 010"⟫ ⟪"E_INFO"⟫ ⟪"EV_NONE"⟫ ⟪"0"⟫ ⟪"oct"⟫.

Lemma code_leading_zero_witness :
  ∃ s, declares (output_line octal_msg) (to_java_id (strip (m_name octal_msg))) s ∧
       java_int_value s = Some (wrap32 (radix_value 8 ⟪"10"⟫)) ∧ code_key octal_msg = Some (decimal_value ⟪"10"⟫).
Proof.
  apply code_leading_zero;
    [unfold comment_safe; apply (bool_decide_unpack _); by vm_compute
    |reflexivity|discriminate|repeat constructor|vm_compute; reflexivity].
Defined.

Definition big_msg : msg := Msg ⟪"Big"⟫ ⟪"ES_DM"⟫ ⟪"3000000000"⟫ ⟪"E_INFO"⟫ ⟪"EV_NONE"⟫ ⟪"0"⟫ ⟪"big"⟫.

Lemma code_too_large_witness :
  ∃ s, declares (output_line big_msg) (to_java_id (strip (m_name big_msg))) s ∧
       java_int_value s = None ∧ code_key big_msg = Some (decimal_value ⟪"3000000000"⟫).
Proof.
  apply code_too_large;
    [unfold comment_safe; apply (bool_decide_unpack _); by vm_compute
    |reflexivity|discriminate|repeat constructor|discriminate|vm_compute; discriminate].
Defined.

(** A text [a */ b]: the comment ends after [a ], and [ b] is code. *)
Definition bad_text_msg : msg := Msg ⟪"Bad"⟫ ⟪"ES_DM"⟫ ⟪"3"⟫ ⟪"E_FAILED"⟫ ⟪"EV_NONE"⟫ ⟪"0"⟫ ⟪"a */ b"⟫.

Lemma output_line_text_closes_comment_witness :
  ∃ n, find ⟪"*/"⟫ (output_line bad_text_msg) = Some n ∧
       drop (n + 2) (output_line bad_text_msg) =
         ⟪" b"⟫ ++ dq :: nl :: decl_tail (to_java_id (strip (m_name bad_text_msg))) (strip (m_code bad_text_msg)).
Proof.
  apply (output_line_text_closes_comment bad_text_msg ⟪"a "⟫ ⟪" b"⟫);
    [unfold fields_safe; apply (bool_decide_unpack _); by vm_compute|reflexivity|reflexivity].
Defined.

Lemma output_msg_lines_sorted_witness :
  ∃ sorted, concat (output_line <$> [sample_msg; Msg ⟪"Second"⟫ ⟪"ES_DM"⟫ ⟪" 2"⟫ ⟪"E_INFO"⟫ ⟪"EV_NONE"⟫ ⟪"0"⟫ ⟪"second"⟫]) = concat (output_line <$> sorted) ∧
    sorted ≡ₚ sample_codes ∧ key_sorted code_of sorted ∧ same_classes code_of sorted sample_codes ∧
    ∀ m, m ∈ sample_codes → code_key m = Some (code_of m).
Proof. apply output_msg_lines_sorted. vm_compute. reflexivity. Defined.

End Emitter.
