(* ===== verification/Main.v ===== *)
(** * [main] (lines 222-247) on a model of the file system

    The file system is the set of directories and the map from file
    paths to contents, paths compared as strings.  A run of [main] gives
    its outcome (an exit code or the exception it raises), the file
    system after it and the lines it prints.  [header], [output_msg_lines]
    and [footer] write to one file opened with mode ['w'], which empties
    it first; the [with] block closes it on every path, so what was
    written before an exception stays in the file. *)

From S2P Require Import Prelude PyStr MsgPattern Scanner JavaId Sorter Emitter.
From stdpp Require Import gmap.

Module Main.
Import PyStr MsgPattern Scanner Sorter Emitter.

(** ** The file system *)

Record fs := FS {
  fs_dirs : gset str;
  fs_files : gmap str str
}.

(** [os.path.isdir]. *)
Definition isdir (w : fs) (p : str) : bool := bool_decide (p ∈ fs_dirs w).

(** [open(p, 'w')] followed by writes of [c] and [close()]. *)
Definition write_file (w : fs) (p c : str) : fs := FS (fs_dirs w) (<[p := c]> (fs_files w)).

(** ** The program *)

Definition REL_OUTDIR : str := ⟪"src/main/java/com/perforce/p4java/server"⟫.   (** line 14 *)
Definition OUTFILE : str := ⟪"IServerMessageCode.java"⟫.                     (** line 15 *)
Definition REL_INFILE : str := ⟪"msgs/msgdm.cc"⟫.                             (** line 16 *)

(** The exceptions that end a run. *)
Inductive exc : Type :=
| IndexError                    (** [args[0]] of an empty [args], line 224 *)
| ParseError (e : parse_error)   (** raised by [parse_msgdm], line 242 *)
| ValueError                    (** raised by [int()] in the sort, line 125 *)
| IsADirectoryError.            (** [open(java_file, 'w')] on a directory, line 243 *)

Inductive outcome : Type :=
| Exit (code : nat)
| Raised (e : exc).

Definition usage (arg0 : str) : str :=
  ⟪"Usage: python3 "⟫ ++ arg0 ++ ⟪" (Perforce c client source directory)"⟫.
Definition not_p4java : str :=
  ⟪"This program is expected to live in the `p4java` directory."⟫.
Definition missing_input (dir file : str) : str :=
  dir ++ ⟪" does not seem to point to the Perforce c client source directory; missing file "⟫ ++ file.

Definition java_outdir (arg0 : str) : str := join (dirname arg0) REL_OUTDIR.   (** lines 227-228 *)
Definition java_file (arg0 : str) : str := join (java_outdir arg0) OUTFILE.     (** line 229 *)
Definition msg_file (arg1 : str) : str := join arg1 REL_INFILE.                 (** line 231 *)

(** Lines 243-246, once the records are parsed. *)
Definition write_java `{StableSort} (w : fs) (arg0 : str) (msgs : list msg) : outcome * fs :=
  let f := java_file arg0 in
  if isdir w f then (Raised IsADirectoryError, w)
  else match output_msg_lines msgs with
       | None => (Raised ValueError, write_file w f (header arg0))
       | Some body => (Exit 0, write_file w f (header arg0 ++ body ++ footer))
       end.

(** Lines 222-247: the outcome, the file system after the run, and the
    lines printed. *)
Definition main `{StableSort} (args : list str) (w : fs) : outcome * fs * list str :=
  match args with
  | [] => (Raised IndexError, w, [])
  | [arg0] => (Exit 1, w, [usage arg0])
  | arg0 :: arg1 :: _ =>
      if negb (isdir w (java_outdir arg0)) then (Exit 1, w, [not_p4java])
      else (* [os.path.isfile(msg_file)], then its contents read by [parse_msgdm] *)
           match fs_files w !! msg_file arg1 with
           | None => (Exit 2, w, [missing_input arg1 (msg_file arg1)])
           | Some contents =>
               match parse_msgdm contents with
               | Err e => (Raised (ParseError e), w, [])
               | Ok msgs => let '(o, w') := write_java w arg0 msgs in (o, w', [])
               end
           end
  end.

(** The process exit status: [sys.exit(n)] exits with [n]; an exception
    that escapes [main] ends the interpreter with status 1. *)
Definition exit_status (o : outcome) : nat :=
  match o with Exit n => n | Raised _ => 1 end.

(** Lines 250-251: [sys.exit(main(sys.argv))]. *)
Definition script `{StableSort} (argv : list str) (w : fs) : nat * fs * list str :=
  let '(o, w', out) := main argv w in (exit_status o, w', out).

(** ** Lemmas *)

Lemma isdir_write w p c q : isdir (write_file w p c) q = isdir w q.
Proof. done. Qed.

Lemma write_file_write_file w p c c' : write_file (write_file w p c) p c' = write_file w p c'.
Proof. unfold write_file. simpl. by rewrite insert_insert_eq. Qed.

(** The input and the output are different files: their names end
    differently. *)
Lemma msg_file_java_file arg0 arg1 : msg_file arg1 ≠ java_file arg0.
Proof.
  intros E. pose proof (join_suffix arg1 REL_INFILE) as H1.
  pose proof (join_suffix (java_outdir arg0) OUTFILE) as H2.
  unfold msg_file, java_file in E. rewrite E in H1.
  destruct (suffix_weak_total _ _ _ H1 H2) as [H|H];
    apply (bool_decide_pack _) in H; vm_compute in H; exact H.
Qed.

Lemma lookup_msg_file_write w arg0 arg1 c :
  fs_files (write_file w (java_file arg0) c) !! msg_file arg1 = fs_files w !! msg_file arg1.
Proof. apply lookup_insert_ne. apply not_eq_sym, msg_file_java_file. Qed.

Section Runs.
Context `{StableSort}.

Lemma write_java_again w arg0 msgs o w' :
  write_java w arg0 msgs = (o, w') → write_java w' arg0 msgs = (o, w').
Proof.
  unfold write_java. destruct (isdir w (java_file arg0)) eqn:Ed; [by intros [= <- <-]; rewrite Ed|].
  destruct (output_msg_lines msgs); intros [= <- <-];
    by rewrite ?isdir_write, Ed, ?write_file_write_file.
Qed.

Lemma write_java_shape w arg0 msgs o w' :
  write_java w arg0 msgs = (o, w') → w' = w ∨ ∃ c, w' = write_file w (java_file arg0) c.
Proof.
  unfold write_java. destruct (isdir w (java_file arg0)); [intros [= _ <-]; by left|].
  destruct (output_msg_lines msgs); intros [= _ <-]; eauto.
Qed.

(** ** Theorems *)

(** The paths of [main] that leave the files as they were. *)
Local Ltac unchanged :=
  right; right; split; [|done];
  first [by left | by right; left | right; right; eexists; split; [done|discriminate]].

(** Every path of [main]: success with the whole file, [ValueError]
    with the header alone, or an early exit or exception with the files
    unchanged. *)
Lemma main_run_cases args w o w' out :
  main args w = (o, w', out) →
  (o = Exit 0 ∧ ∃ arg0 body, head args = Some arg0 ∧
     w' = write_file w (java_file arg0) (header arg0 ++ body ++ footer)) ∨
  (o = Raised ValueError ∧ ∃ arg0, head args = Some arg0 ∧
     w' = write_file w (java_file arg0) (header arg0)) ∨
  ((o = Exit 1 ∨ o = Exit 2 ∨ ∃ e, o = Raised e ∧ e ≠ ValueError) ∧ w' = w).
Proof.
  destruct args as [|a0 [|a1 rest]]; unfold main; [intros [= <- <- <-]; unchanged..|].
  destruct (negb (isdir w (java_outdir a0))); [intros [= <- <- <-]; unchanged|].
  destruct (fs_files w !! msg_file a1) as [contents|]; [|intros [= <- <- <-]; unchanged].
  destruct (parse_msgdm contents) as [msgs|e]; [|intros [= <- <- <-]; unchanged].
  unfold write_java. destruct (isdir w (java_file a0)); [intros [= <- <- <-]; unchanged|].
  destruct (output_msg_lines msgs); intros [= <- <- <-].
  - left. split; [done|]. by eexists _, _.
  - right; left. split; [done|]. by eexists.
Qed.

(** C13: What a run leaves in the file system: the Java file with the whole
    output after success, the Java file with the header alone after a
    [ValueError] in the sort, and nothing changed on every other path. *)
Theorem main_effects args w o w' out :
  main args w = (o, w', out) →
  match o with
  | Exit 0 => ∃ arg0 body, head args = Some arg0 ∧
                w' = write_file w (java_file arg0) (header arg0 ++ body ++ footer)
  | Raised ValueError => ∃ arg0, head args = Some arg0 ∧
                w' = write_file w (java_file arg0) (header arg0)
  | _ => w' = w
  end.
Proof.
  intros [[-> ?]|[[-> ?]|[[->|[->|(e & -> & He)]] ->]]]%main_run_cases; try done.
  by destruct e.
Qed.

(** C9: Running the program a second time on what the first run left gives
    the same outcome and the same files: the output is reproducible. *)
Theorem main_idempotent args w o w' out :
  main args w = (o, w', out) → main args w' = (o, w', out).
Proof.
  destruct args as [|a0 [|a1 rest]]; unfold main; [by intros [= <- <- <-]|by intros [= <- <- <-]|].
  destruct (negb (isdir w (java_outdir a0))) eqn:Ed; [by intros [= <- <- <-]; rewrite Ed|].
  destruct (fs_files w !! msg_file a1) as [contents|] eqn:Ef; [|by intros [= <- <- <-]; rewrite Ed, Ef].
  destruct (parse_msgdm contents) as [msgs|e] eqn:Ep; [|by intros [= <- <- <-]; rewrite Ed, Ef, Ep].
  destruct (write_java w a0 msgs) as [o' w''] eqn:Ew. intros [= <- <- <-].
  assert (fs_files w'' !! msg_file a1 = Some contents ∧ isdir w'' (java_outdir a0) = isdir w (java_outdir a0))
    as [Hr Hd].
  { destruct (write_java_shape _ _ _ _ _ Ew) as [->|[c ->]]; [done|].
    by rewrite lookup_msg_file_write, isdir_write. }
  by rewrite Hd, Ed, Hr, Ep, (write_java_again _ _ _ _ _ Ew).
Qed.

(** C2: Every record read, with an integer code: the run exits with 0 and
    the Java file holds the header, the records in the order insertion
    sort by code gives, and the footer, whatever stable sort runs. *)
Theorem main_ok arg0 arg1 rest w contents msgs (code : msg → Z) :
  isdir w (java_outdir arg0) = true → isdir w (java_file arg0) = false →
  fs_files w !! msg_file arg1 = Some contents →
  parse_msgdm contents = Ok msgs →
  (∀ m, m ∈ msgs → code_key m = Some (code m)) →
  main (arg0 :: arg1 :: rest) w =
    (Exit 0, write_file w (java_file arg0)
               (header arg0 ++ concat (output_line <$> isort code msgs) ++ footer), []).
Proof.
  intros Hd Hf Hc Hp Hk. unfold main. rewrite Hd, Hc, Hp. cbn [negb].
  unfold write_java, output_msg_lines. by rewrite Hf, (sort_by_key_isort _ code _ Hk).
Qed.

(** C14: The exits before any file is opened: the usage message with exit 1
    (an [IndexError] when even [args[0]] is missing), exit 1 without the
    output directory, exit 2 without the input file, and the exception of
    [parse_msgdm]; the file system is left as it was. *)
Theorem main_early_exits arg0 arg1 rest w :
  main [] w = (Raised IndexError, w, []) ∧
  main [arg0] w = (Exit 1, w, [usage arg0]) ∧
  (isdir w (java_outdir arg0) = false →
     main (arg0 :: arg1 :: rest) w = (Exit 1, w, [not_p4java])) ∧
  (isdir w (java_outdir arg0) = true → fs_files w !! msg_file arg1 = None →
     main (arg0 :: arg1 :: rest) w = (Exit 2, w, [missing_input arg1 (msg_file arg1)])) ∧
  (∀ contents e, isdir w (java_outdir arg0) = true → fs_files w !! msg_file arg1 = Some contents →
     parse_msgdm contents = Err e → main (arg0 :: arg1 :: rest) w = (Raised (ParseError e), w, [])).
Proof.
  split_and!; [done|done| | |]; unfold main.
  - by intros ->.
  - by intros -> ->.
  - by intros contents e -> -> ->.
Qed.

(** C8: A code that [int()] rejects raises [ValueError] after the header
    is written: the Java file is left with the header alone. *)
Theorem main_value_error arg0 arg1 rest w contents msgs :
  isdir w (java_outdir arg0) = true → isdir w (java_file arg0) = false →
  fs_files w !! msg_file arg1 = Some contents →
  parse_msgdm contents = Ok msgs →
  (∃ m, m ∈ msgs ∧ code_key m = None) →
  main (arg0 :: arg1 :: rest) w =
    (Raised ValueError, write_file w (java_file arg0) (header arg0), []).
Proof.
  intros Hd Hf Hc Hp Hk%sort_by_key_error. unfold main. rewrite Hd, Hc, Hp. cbn [negb].
  unfold write_java, output_msg_lines. by rewrite Hf, Hk.
Qed.

(** C11: The exit status of the script tells what it left: 0 after writing
    the whole Java file, 1 when nothing was written or only the header
    (usage, missing output directory, parse error, [ValueError]), 2 when
    the input file is missing and nothing was written. *)
Theorem script_status argv w s w' out :
  script argv w = (s, w', out) →
  (s = 0 ∧ ∃ arg0 body, head argv = Some arg0 ∧
     w' = write_file w (java_file arg0) (header arg0 ++ body ++ footer)) ∨
  (s = 1 ∧ (w' = w ∨ ∃ arg0, head argv = Some arg0 ∧
     w' = write_file w (java_file arg0) (header arg0))) ∨
  (s = 2 ∧ w' = w).
Proof.
  unfold script. destruct (main argv w) as [[o w''] out'] eqn:E. intros [= <- <- <-].
  destruct (main_run_cases _ _ _ _ _ E) as [[-> Hw]|[[-> Hw]|[[->|[->|(e & -> & _)]] ->]]]; cbn [exit_status].
  - by left.
  - right; left. split; [done|by right].
  - right; left. split; [done|by left].
  - by right; right.
  - right; left. split; [done|by left].
Qed.

(** C10: Every definition of a source file of the shape [parse_msgdm] reads
    back ends up in the Java file: the run exits with 0 and the file
    contains the constant written for each definition. *)
Theorem main_writes_every_definition arg0 arg1 rest w items :
  isdir w (java_outdir arg0) = true → isdir w (java_file arg0) = false →
  fs_files w !! msg_file arg1 = Some (src_file items) →
  Forall item_ok items →
  (∀ m, SRecord m ∈ items → is_Some (code_key (strip_msg m))) →
  ∃ c, main (arg0 :: arg1 :: rest) w = (Exit 0, write_file w (java_file arg0) c, []) ∧
       ∀ m, SRecord m ∈ items → ∃ pre post, c = pre ++ output_line (strip_msg m) ++ post.
Proof.
  intros Hd Hf Hc Hok Hk.
  assert (Hp : parse_msgdm (src_file items) = Ok (concat (map item_records items))).
  { unfold parse_msgdm, src_file. rewrite readlines_unlines.
    2: { apply Forall_concat, Forall_fmap. eapply Forall_impl; [exact Hok|]. by intros it [? _]. }
    by rewrite scan_lines_nl, scan_items. }
  assert (Hm : ∀ m, SRecord m ∈ items → strip_msg m ∈ concat (map item_records items)).
  { intros m Hm. apply list_elem_of_In, in_concat. exists [strip_msg m].
    split; [apply in_map_iff; exists (SRecord m); by split; [|apply list_elem_of_In]|by left]. }
  assert (Hk' : ∀ m', m' ∈ concat (map item_records items) → code_key m' = Some (code_of m')).
  { intros m' Hm'. apply list_elem_of_In, in_concat in Hm' as (l & Hl & Hin).
    apply in_map_iff in Hl as ([m| | | |] & <- & Hit); simpl in Hin; try done.
    destruct Hin as [<-|[]]. apply list_elem_of_In in Hit.
    destruct (Hk m Hit) as [k Hkey]. unfold code_of. by rewrite Hkey. }
  eexists. split.
  - unfold main. rewrite Hd, Hc, Hp. cbn [negb].
    unfold write_java, output_msg_lines. by rewrite Hf, (sort_by_key_isort _ code_of _ Hk').
  - intros m Hin. apply Hm in Hin.
    rewrite <- (isort_perm code_of) in Hin.
    destruct (concat_fmap_split output_line _ _ Hin) as (pre & post & ->).
    exists (header arg0 ++ pre), (post ++ footer). by rewrite <- !app_assoc.
Qed.

End Runs.

(** ** A run on a small [msgdm.cc] *)

Definition demo_script : str := ⟪"p4java/generate-error-codes.py"⟫.
Definition demo_client : str := ⟪"p4"⟫.

(** A block comment, a [#] line, blank lines and one definition. *)
Definition demo_msgdm : str :=
  unlines [
    ⟪"/*"⟫; ⟪" * msgdm.cc - definitions of DM errors"⟫; ⟪" */"⟫; [];
    ⟪"# include <error.h>"⟫; [];
    ⟪"ErrorId MsgDm::BadCharSet = { ErrorOf( ES_DM, 1, E_FAILED, EV_USAGE, 0 ), "⟫ ++
      dq :: ⟪"Invalid character set."⟫ ++ dq :: ⟪" } ;"⟫
  ].

Definition demo_fs : fs :=
  FS {[ ⟪"p4java/src/main/java/com/perforce/p4java/server"⟫ ]}
     {[ ⟪"p4/msgs/msgdm.cc"⟫ := demo_msgdm ]}.

Definition demo_record : msg :=
  Msg ⟪"BadCharSet"⟫ ⟪"ES_DM"⟫ ⟪"1"⟫ ⟪"E_FAILED"⟫ ⟪"EV_USAGE"⟫ ⟪"0"⟫ ⟪"Invalid character set."⟫.

(** The text written for the definition. *)
Definition demo_output : str :=
  nl :: unlines [
    ⟪"    /**"⟫;
    ⟪"     * BadCharSet"⟫;
    ⟪"     * Severity {@link MessageSeverityCode#E_FAILED}"⟫;
    ⟪"     * Subsystem code {@link MessageSubsystemCode#ES_DM}"⟫;
    ⟪"     * Generic code {@link MessageGenericCode#EV_USAGE},"⟫;
    ⟪"     * argument count 0,"⟫;
    ⟪"     * Text: "⟫ ++ dq :: ⟪"Invalid character set."⟫ ++ [dq];
    ⟪"     */"⟫;
    ⟪"    int BAD_CHAR_SET = 1;"⟫
  ].

Lemma demo_parse : parse_msgdm demo_msgdm = Ok [demo_record].
Proof. vm_compute. reflexivity. Qed.

(** The run on the sample source: exit 0, and the Java file holds the
    header, the constant [BAD_CHAR_SET = 1] with its comment, and the
    footer. *)
Lemma main_ok_witness :
  main [demo_script; demo_client] demo_fs =
    (Exit 0, write_file demo_fs ⟪"p4java/src/main/java/com/perforce/p4java/server/IServerMessageCode.java"⟫
               (header demo_script ++ demo_output ++ footer), []).
Proof.
  rewrite (main_ok demo_script demo_client [] demo_fs demo_msgdm [demo_record] code_of);
    [|vm_compute; reflexivity..|intros m ->%list_elem_of_singleton; vm_compute; reflexivity].
  assert (concat (output_line <$> isort code_of [demo_record]) = demo_output) as ->
    by (vm_compute; reflexivity).
  assert (java_file demo_script =
    ⟪"p4java/src/main/java/com/perforce/p4java/server/IServerMessageCode.java"⟫) as ->
    by (vm_compute; reflexivity).
  reflexivity.
Defined.

(** A source whose only definition has the code [1a]. *)
Definition demo_bad_fs : fs :=
  FS {[ ⟪"p4java/src/main/java/com/perforce/p4java/server"⟫ ]}
     {[ ⟪"p4/msgs/msgdm.cc"⟫ := unlines [⟪"ErrorId MsgDm::Bad = { ErrorOf( ES_DM, 1a, E_FAILED, EV_USAGE, 0 ), "⟫ ++
                                            dq :: ⟪"bad"⟫ ++ dq :: ⟪" };"⟫] ]}.

Lemma main_value_error_witness :
  main [demo_script; demo_client] demo_bad_fs =
    (Raised ValueError, write_file demo_bad_fs (java_file demo_script) (header demo_script), []).
Proof.
  eapply main_value_error; [vm_compute; reflexivity..|].
  eexists. split; [left|]. vm_compute. reflexivity.
Defined.

Lemma main_early_exits_witness :
  main [demo_script; ⟪"elsewhere"⟫] demo_fs =
    (Exit 2, demo_fs, [missing_input ⟪"elsewhere"⟫ (msg_file ⟪"elsewhere"⟫)]).
Proof.
  destruct (main_early_exits demo_script ⟪"elsewhere"⟫ [] demo_fs) as (_ & _ & _ & H & _).
  apply H; vm_compute; reflexivity.
Defined.

(** The run on the sample source, computed piece by piece. *)
Lemma demo_run :
  main [demo_script; demo_client] demo_fs =
    (Exit 0, write_file demo_fs (java_file demo_script) (header demo_script ++ demo_output ++ footer), []).
Proof.
  assert (isdir demo_fs (java_outdir demo_script) = true) as Hd by (vm_compute; reflexivity).
  assert (isdir demo_fs (java_file demo_script) = false) as Hf by (vm_compute; reflexivity).
  assert (fs_files demo_fs !! msg_file demo_client = Some demo_msgdm) as Hc by (vm_compute; reflexivity).
  assert (output_msg_lines [demo_record] = Some demo_output) as Ho by (vm_compute; reflexivity).
  unfold main. rewrite Hd, Hc, demo_parse. cbn [negb]. unfold write_java. by rewrite Hf, Ho.
Qed.

Lemma main_effects_witness :
  ∃ arg0 body, head [demo_script; demo_client] = Some arg0 ∧
    write_file demo_fs (java_file demo_script) (header demo_script ++ demo_output ++ footer) =
    write_file demo_fs (java_file arg0) (header arg0 ++ body ++ footer).
Proof. exact (main_effects _ _ (Exit 0) _ _ demo_run). Defined.

Lemma main_idempotent_witness :
  let w' := write_file demo_fs (java_file demo_script) (header demo_script ++ demo_output ++ footer) in
  main [demo_script; demo_client] w' = (Exit 0, w', []).
Proof. exact (main_idempotent _ _ _ _ _ demo_run). Defined.

Lemma script_status_witness :
  let w := demo_fs in
  (2 = 0 ∧ ∃ arg0 body, head [demo_script; ⟪"elsewhere"⟫] = Some arg0 ∧
     w = write_file demo_fs (java_file arg0) (header arg0 ++ body ++ footer)) ∨
  (2 = 1 ∧ (w = demo_fs ∨ ∃ arg0, head [demo_script; ⟪"elsewhere"⟫] = Some arg0 ∧
     w = write_file demo_fs (java_file arg0) (header arg0))) ∨
  (2 = 2 ∧ w = demo_fs).
Proof.
  apply (script_status _ _ _ _ [missing_input ⟪"elsewhere"⟫ (msg_file ⟪"elsewhere"⟫)]).
  assert (isdir demo_fs (java_outdir demo_script) = true) as Hd by (vm_compute; reflexivity).
  assert (fs_files demo_fs !! msg_file ⟪"elsewhere"⟫ = None) as Hf by (vm_compute; reflexivity).
  unfold script, main. by rewrite Hd, Hf.
Defined.

(** The sample file of [Scanner] as the input of a run. *)
Definition demo_items_fs : fs :=
  FS {[ ⟪"p4java/src/main/java/com/perforce/p4java/server"⟫ ]}
     {[ ⟪"p4/msgs/msgdm.cc"⟫ := src_file sample_items ]}.

Lemma main_writes_every_definition_witness :
  ∃ c, main [demo_script; demo_client] demo_items_fs =
         (Exit 0, write_file demo_items_fs (java_file demo_script) c, []) ∧
       ∀ m, SRecord m ∈ sample_items → ∃ pre post, c = pre ++ output_line (strip_msg m) ++ post.
Proof.
  apply main_writes_every_definition; [vm_compute; reflexivity..| |].
  - apply (bool_decide_unpack _). by vm_compute.
  - intros m Hm. repeat (apply elem_of_cons in Hm as [Hm|Hm]; [try discriminate|]).
    + injection Hm as ->. vm_compute. by eexists.
    + by apply elem_of_nil in Hm.
Defined.

End Main.
